(** * CartoRewind: the two-panel map script (script.js)

    A shallow embedding of [script.js]: the city resolver, the tile
    catalog, the historical layer switcher, the view synchronisation of
    the two panels and the mirrored cursor, followed by the properties
    that the specification states about them.

    The script is a client of two things it does not define: the
    JavaScript realm it runs in (property reads that fall through to
    [Object.prototype], number arithmetic, string conversion) and the
    Leaflet map widget. Both are interfaces here ([Realm], [Widget]);
    the script's own functions are written against them, statement by
    statement. *)

From Stdlib Require Import Ascii String QArith.
From stdpp Require Import gmap strings list pretty.

Open Scope string_scope.
Open Scope Z_scope.

(** ** Strings *)

Module Str.

(** [s.split(sep)] for a one-character separator: never the empty
    array, [''.split('/')] is [['']]. *)
Fixpoint split (sep : ascii) (s : string) : list string :=
  match s with
  | EmptyString => [EmptyString]
  | String c s' =>
      if decide (c = sep) then EmptyString :: split sep s'
      else match split sep s' with
           | [] => [String c EmptyString]
           | seg :: rest => String c seg :: rest
           end
  end.

(** [a.pop()]: the last element, [undefined] ([None]) on the empty
    array. *)
Definition pop (a : list string) : option string := last a.

Fixpoint drop (n : nat) (s : string) : string :=
  match n, s with
  | O, _ => s
  | S _, EmptyString => EmptyString
  | S n', String _ s' => drop n' s'
  end.

(** [s.replace(pat, rep)] with a string pattern: only the first
    occurrence is replaced. *)
Fixpoint replace (pat rep s : string) : string :=
  if String.prefix pat s then rep ++ drop (String.length pat) s
  else match s with
       | EmptyString => EmptyString
       | String c s' => String c (replace pat rep s')
       end.

(** [pat] occurs somewhere in [s]. *)
Fixpoint occurs (pat s : string) : bool :=
  String.prefix pat s ||
  match s with
  | EmptyString => false
  | String _ s' => occurs pat s'
  end.

Fixpoint mem (c : ascii) (s : string) : bool :=
  match s with
  | EmptyString => false
  | String c' s' => bool_decide (c' = c) || mem c s'
  end.

End Str.

(** ** The realm

    Values that a property read in the script can produce: the
    primitives the tables of the script hold, and [VIntrinsic] for
    whatever else lives in the realm (built-in functions, prototype
    objects, numbers). *)

Inductive value (I : Type) : Type :=
| VUndefined
| VNull
| VString (s : string)
| VIntrinsic (i : I).

Arguments VUndefined {I}.
Arguments VNull {I}.
Arguments VString {I} s.
Arguments VIntrinsic {I} i.

(** JavaScript exceptions are carried as their message. *)
Definition exn := string.

Class Realm := {
  (** realm objects and other values the script's literals do not write *)
  intrinsic : Type;
  (** ToBoolean on them *)
  intrinsic_truthy : intrinsic -> bool;
  (** ToString on them, as a template literal applies it; [inl] when it
      throws *)
  intrinsic_to_string : intrinsic -> exn + string;
  (** [o[k]] for a plain object [o] that has no own property [k]: the
      read falls through to [Object.prototype] *)
  object_prototype_get : string -> value intrinsic;
  (** [v[k]] for a truthy value [v] that is not one of the script's
      object literals; [inl] when the read throws *)
  realm_get : value intrinsic -> string -> exn + value intrinsic;
  (** IEEE numbers of pointer events and layout *)
  number : Type;
  number_sub : number -> number -> number;
  number_to_string : number -> string
}.

Section Values.
Context `{R : Realm}.

Definition Value := value intrinsic.

(** ToBoolean. *)
Definition truthy (v : Value) : bool :=
  match v with
  | VUndefined | VNull => false
  | VString s => negb (String.eqb s "")
  | VIntrinsic i => intrinsic_truthy i
  end.

(** ToString, as [`${v}`] applies it. *)
Definition to_string (v : Value) : exn + string :=
  match v with
  | VUndefined => inr "undefined"
  | VNull => inr "null"
  | VString s => inr s
  | VIntrinsic i => intrinsic_to_string i
  end.

(** [o[k]] where [o] is an object literal whose own properties are
    [own] and whose prototype is [Object.prototype]. *)
Definition get {A} (inj : A -> Value) (own : gmap string A) (k : string)
  : Value :=
  match own !! k with
  | Some a => inj a
  | None => object_prototype_get k
  end.

End Values.

(** ** City resolver *)

Section CityResolver.
Context `{R : Realm}.

(** The table inside [getCurrentCity]. *)
Definition cityMap : gmap string string :=
  list_to_map
    [ ("munich", "munich");
      ("vienna", "vienna");
      ("dresden", "dresden");
      ("enschede", "enschede");
      ("index", "munich");
      ("", "munich") ].

(** [getCurrentCity()], with [window.location.pathname] as argument.
    [None] stands for the TypeError of [undefined.replace(...)]. *)
Definition getCurrentCity (pathname : string) : option Value :=
  match Str.pop (Str.split "/" pathname) with
  | None => None
  | Some segment =>
      let filename := Str.replace ".html" "" segment in
      let found := get VString cityMap filename in
      Some (if truthy found then found else VString "munich")
  end.

End CityResolver.

(** ** The widget library's data

    Leaflet objects as far as the script configures and reads them. *)

Module L.

Record LatLng := latLng { lat : Q; lng : Q }.

Record LatLngBounds := latLngBounds { southWest : LatLng; northEast : LatLng }.

(** The options object given to [L.tileLayer]; a key the caller leaves
    out is [None]. *)
Record TileLayerOptions := {
  maxZoom : Z;
  minZoom : Z;
  attribution : option string;
  tms : option bool;
  noWrap : option bool
}.

Record TileLayer := { url : string; layerOptions : TileLayerOptions }.

Record MapOptions := {
  zoomControl : bool;
  attributionControl : bool;
  maxBounds : LatLngBounds
}.

Inductive Panel := Map1 | Map2.

(** The events the script listens to. *)
Inductive ViewEvent := Move | Zoom.

Inductive EventType := OnView (v : ViewEvent) | OnMouseMove.

(** The script's listeners: the two arrow functions around [syncView]
    and the function [updateCursors]. *)
Inductive Listener :=
| SyncView (fromMap toMap : Panel)
| UpdateCursors.

(** Objects are shared by reference: a handle is the position of the
    object in the store of the state. *)
Abbreviation handle := nat.

Record Map := {
  container : string;
  mapOptions : MapOptions;
  center : LatLng;
  zoom : Z;
  mapLayers : list handle;
  layerControls : list (list (string * handle));
  listeners : list (EventType * Listener)
}.

Definition with_view (c : LatLng) (z : Z) (m : Map) : Map :=
  {| container := container m; mapOptions := mapOptions m;
     center := c; zoom := z;
     mapLayers := mapLayers m; layerControls := layerControls m;
     listeners := listeners m |}.

Definition with_layers (ls : list handle) (m : Map) : Map :=
  {| container := container m; mapOptions := mapOptions m;
     center := center m; zoom := zoom m;
     mapLayers := ls; layerControls := layerControls m;
     listeners := listeners m |}.

Definition with_controls (cs : list (list (string * handle))) (m : Map) : Map :=
  {| container := container m; mapOptions := mapOptions m;
     center := center m; zoom := zoom m;
     mapLayers := mapLayers m; layerControls := cs;
     listeners := listeners m |}.

Definition with_listeners (fs : list (EventType * Listener)) (m : Map) : Map :=
  {| container := container m; mapOptions := mapOptions m;
     center := center m; zoom := zoom m;
     mapLayers := mapLayers m; layerControls := layerControls m;
     listeners := fs |}.

Definition with_url (u : string) (l : TileLayer) : TileLayer :=
  {| url := u; layerOptions := layerOptions l |}.

Definition other (p : Panel) : Panel :=
  match p with Map1 => Map2 | Map2 => Map1 end.

Global Instance Q_eq_dec : EqDecision Q.
Proof. solve_decision. Defined.
Global Instance LatLng_eq_dec : EqDecision LatLng.
Proof. solve_decision. Defined.
Global Instance Panel_eq_dec : EqDecision Panel.
Proof. solve_decision. Defined.
Global Instance TileLayerOptions_eq_dec : EqDecision TileLayerOptions.
Proof. solve_decision. Defined.
Global Instance ViewEvent_eq_dec : EqDecision ViewEvent.
Proof. solve_decision. Defined.
Global Instance EventType_eq_dec : EqDecision EventType.
Proof. solve_decision. Defined.

End L.

(** The behaviour of the widget that the script relies on without
    fixing it, at a programmatic [setView] on a map that is on display.
    [setView_view]: the view the map shows afterwards, given its
    options, the view it shows and the view asked for. The widget keeps
    the view inside [maxBounds] and, while the zoom stays, pans by whole
    pixels, so this need not be the view asked for; all that is taken
    for granted is [setView_same], that a map asked for the view it
    shows stays where it is. [setView_emits]: which of the events the
    script listens to the call emits on that map, given the view before
    and the view after. *)
Class Widget := {
  setView_view : L.MapOptions -> L.LatLng * Z -> L.LatLng * Z -> L.LatLng * Z;
  setView_emits : L.LatLng * Z -> L.LatLng * Z -> list L.ViewEvent;
  setView_same : forall o v, setView_view o v v = v
}.

(** ** Configuration *)

(** [centerCoords]: the arrays [[lat, lng]] per city. *)
Definition centerCoords : gmap string (Q * Q) :=
  list_to_map
    [ ("munich", (48.1351, 11.5820)%Q);
      ("vienna", (48.2082, 16.3738)%Q);
      ("enschede", (52.2215, 6.8937)%Q);
      ("dresden", (51.0504, 13.7373)%Q) ].

(** A catalog: city, then year, then a folder name or [null] ([None]). *)
Abbreviation Catalog := (gmap string (gmap string (option string))).

Definition TILE_FOLDER_MAP : Catalog :=
  list_to_map
    [ ("munich",
        list_to_map [ ("1400", None); ("1500", None); ("1600", None);
                      ("1888", Some "muc-1888") ]);
      ("vienna",
        list_to_map [ ("1800", Some "vie-1800-folder");
                      ("1833", Some "v_1833") ]);
      ("dresden",
        list_to_map [ ("1750", Some "dre-1750-folder");
                      ("1833", Some "d_1833");
                      ("1878", Some "dre-1878-folder") ]);
      ("enschede",
        list_to_map [ ("1830", Some "ens-1830-folder");
                      ("1900", Some "ens-1900-folder") ]) ].

Definition bounds : L.LatLngBounds :=
  L.latLngBounds (L.latLng 35 (-10)) (L.latLng 71 40).

(** ** Program state *)

(** A cursor indicator: the [div] that [createCursor] makes, with the
    two style properties the script writes. *)
Record Cursor := {
  className : string;
  parentId : string;
  styleLeft : string;
  styleTop : string
}.

(** What the script does to the outside, in program order: its calls
    into the widget and the console, and its writes to the guard of
    [syncView]. *)
Inductive Effect :=
| Warned (msg : string)
| LayerCreated (h : L.handle)
| LayerAdded (p : L.Panel) (h : L.handle)
| LayerRemoved (p : L.Panel) (h : L.handle)
| UrlSet (h : L.handle) (u : string)
| ViewSet (p : L.Panel) (c : L.LatLng) (z : Z) (animate : option bool)
| GuardSet (b : bool).

(** The globals of the script ([map1], [map2], [cursor1], [cursor2],
    [histLayer], [baseLayers]; [None] is [undefined] or [null]), the
    variable [syncing] that the listeners close over, and the objects
    they point to. *)
Record State := {
  layers : list L.TileLayer;
  elements : list Cursor;
  documentCursors : list L.handle;
  map1 : option L.Map;
  map2 : option L.Map;
  cursor1 : option L.handle;
  cursor2 : option L.handle;
  histLayer : option L.handle;
  baseLayers : option (list (string * L.handle));
  syncing : bool;
  trace : list Effect
}.

Definition set_layers (x : list L.TileLayer) (st : State) : State :=
  {| layers := x; elements := elements st;
     documentCursors := documentCursors st; map1 := map1 st;
     map2 := map2 st; cursor1 := cursor1 st; cursor2 := cursor2 st;
     histLayer := histLayer st; baseLayers := baseLayers st;
     syncing := syncing st; trace := trace st |}.

Definition set_elements (x : list Cursor) (st : State) : State :=
  {| layers := layers st; elements := x;
     documentCursors := documentCursors st; map1 := map1 st;
     map2 := map2 st; cursor1 := cursor1 st; cursor2 := cursor2 st;
     histLayer := histLayer st; baseLayers := baseLayers st;
     syncing := syncing st; trace := trace st |}.

Definition set_documentCursors (x : list L.handle) (st : State) : State :=
  {| layers := layers st; elements := elements st; documentCursors := x;
     map1 := map1 st; map2 := map2 st; cursor1 := cursor1 st;
     cursor2 := cursor2 st; histLayer := histLayer st;
     baseLayers := baseLayers st; syncing := syncing st;
     trace := trace st |}.

Definition set_map1 (x : option L.Map) (st : State) : State :=
  {| layers := layers st; elements := elements st;
     documentCursors := documentCursors st; map1 := x; map2 := map2 st;
     cursor1 := cursor1 st; cursor2 := cursor2 st;
     histLayer := histLayer st; baseLayers := baseLayers st;
     syncing := syncing st; trace := trace st |}.

Definition set_map2 (x : option L.Map) (st : State) : State :=
  {| layers := layers st; elements := elements st;
     documentCursors := documentCursors st; map1 := map1 st; map2 := x;
     cursor1 := cursor1 st; cursor2 := cursor2 st;
     histLayer := histLayer st; baseLayers := baseLayers st;
     syncing := syncing st; trace := trace st |}.

Definition set_cursor1 (x : option L.handle) (st : State) : State :=
  {| layers := layers st; elements := elements st;
     documentCursors := documentCursors st; map1 := map1 st;
     map2 := map2 st; cursor1 := x; cursor2 := cursor2 st;
     histLayer := histLayer st; baseLayers := baseLayers st;
     syncing := syncing st; trace := trace st |}.

Definition set_cursor2 (x : option L.handle) (st : State) : State :=
  {| layers := layers st; elements := elements st;
     documentCursors := documentCursors st; map1 := map1 st;
     map2 := map2 st; cursor1 := cursor1 st; cursor2 := x;
     histLayer := histLayer st; baseLayers := baseLayers st;
     syncing := syncing st; trace := trace st |}.

Definition set_histLayer (x : option L.handle) (st : State) : State :=
  {| layers := layers st; elements := elements st;
     documentCursors := documentCursors st; map1 := map1 st;
     map2 := map2 st; cursor1 := cursor1 st; cursor2 := cursor2 st;
     histLayer := x; baseLayers := baseLayers st; syncing := syncing st;
     trace := trace st |}.

Definition set_baseLayers (x : option (list (string * L.handle))) (st : State) : State :=
  {| layers := layers st; elements := elements st;
     documentCursors := documentCursors st; map1 := map1 st;
     map2 := map2 st; cursor1 := cursor1 st; cursor2 := cursor2 st;
     histLayer := histLayer st; baseLayers := x; syncing := syncing st;
     trace := trace st |}.

Definition set_syncing (x : bool) (st : State) : State :=
  {| layers := layers st; elements := elements st;
     documentCursors := documentCursors st; map1 := map1 st;
     map2 := map2 st; cursor1 := cursor1 st; cursor2 := cursor2 st;
     histLayer := histLayer st; baseLayers := baseLayers st; syncing := x;
     trace := trace st |}.

Definition set_trace (x : list Effect) (st : State) : State :=
  {| layers := layers st; elements := elements st;
     documentCursors := documentCursors st; map1 := map1 st;
     map2 := map2 st; cursor1 := cursor1 st; cursor2 := cursor2 st;
     histLayer := histLayer st; baseLayers := baseLayers st;
     syncing := syncing st; trace := x |}.

(** The state when the script starts. *)
Definition pageLoaded : State :=
  {| layers := []; elements := []; documentCursors := [];
     map1 := None; map2 := None; cursor1 := None; cursor2 := None;
     histLayer := None; baseLayers := None; syncing := false; trace := [] |}.

Definition panel (p : L.Panel) (st : State) : option L.Map :=
  match p with L.Map1 => map1 st | L.Map2 => map2 st end.

Definition set_panel (p : L.Panel) (m : L.Map) (st : State) : State :=
  match p with
  | L.Map1 => set_map1 (Some m) st
  | L.Map2 => set_map2 (Some m) st
  end.

(** ** Statements: state and exceptions *)

Inductive Completion (A : Type) : Type :=
| Normal (a : A) (st : State)
| Thrown (e : exn) (st : State)
| Unfinished.

Arguments Normal {A} a st.
Arguments Thrown {A} e st.
Arguments Unfinished {A}.

Definition M (A : Type) : Type := State -> Completion A.

#[global] Instance M_ret : MRet M := fun A a st => Normal a st.

#[global] Instance M_bind : MBind M := fun A B f m st =>
  match m st with
  | Normal a st' => f a st'
  | Thrown e st' => Thrown e st'
  | Unfinished => Unfinished
  end.

Definition throw {A} (e : exn) : M A := fun st => Thrown e st.

Definition gets {A} (f : State -> A) : M A := fun st => Normal (f st) st.

Definition modify (f : State -> State) : M unit := fun st => Normal tt (f st).

Definition emit (e : Effect) : M unit :=
  modify (fun st => set_trace (trace st ++ [e]) st).

(** A pure computation that may throw. *)
Definition lift {A} (r : exn + A) : M A :=
  match r with
  | inl e => throw e
  | inr a => mret a
  end.

(** The state a statement leaves, however it completes. *)
Definition final_state {A} (st : State) (c : Completion A) : State :=
  match c with
  | Normal _ st' => st'
  | Thrown _ st' => st'
  | Unfinished => st
  end.

Fixpoint forEach {A} (f : A -> M unit) (l : list A) : M unit :=
  match l with
  | [] => mret tt
  | a :: l' => f a;; forEach f l'
  end.

(** ** The script *)

Section Script.
Context `{R : Realm} `{W : Widget}.

(** *** Calls into the widget *)

(** A method call on [map1] or [map2]: a TypeError while the global is
    still [undefined]. *)
Definition theMap (p : L.Panel) : M L.Map := fun st =>
  match panel p st with
  | Some m => Normal m st
  | None => Thrown "TypeError: the map is undefined" st
  end.

(** [L.tileLayer(url, options)]: a new layer object. *)
Definition tileLayer (u : string) (o : L.TileLayerOptions) : M L.handle :=
  h ← gets (fun st => length (layers st));
  modify (fun st =>
    set_layers (layers st ++ [{| L.url := u; L.layerOptions := o |}]) st);;
  emit (LayerCreated h);;
  mret h.

(** [layer.addTo(map)]: attaches the layer unless the map has it, and
    returns the layer. *)
Definition addTo (h : L.handle) (p : L.Panel) : M L.handle :=
  m ← theMap p;
  emit (LayerAdded p h);;
  modify (set_panel p
    (if bool_decide (h ∈ L.mapLayers m) then m
     else L.with_layers (L.mapLayers m ++ [h]) m));;
  mret h.

(** [map.removeLayer(layer)]. *)
Definition removeLayer (p : L.Panel) (h : L.handle) : M unit :=
  m ← theMap p;
  emit (LayerRemoved p h);;
  modify (set_panel p
    (L.with_layers (filter (fun h' => h' ≠ h) (L.mapLayers m)) m)).

(** [layer.setUrl(url)]: the same object, another template. *)
Definition setUrl (h : L.handle) (u : string) : M unit :=
  emit (UrlSet h u);;
  modify (fun st => set_layers (alter (L.with_url u) h (layers st)) st).

(** [L.map(id, options).setView(center, zoom)], assigned to the global
    of panel [p]. No listener is registered on a widget this new, so the
    events of this first [setView] reach nobody. *)
Definition newMap (p : L.Panel) (id : string) (o : L.MapOptions)
    (c : L.LatLng) (z : Z) : M unit :=
  emit (ViewSet p c z None);;
  modify (set_panel p
    {| L.container := id; L.mapOptions := o; L.center := c; L.zoom := z;
       L.mapLayers := []; L.layerControls := []; L.listeners := [] |}).

(** [map.remove()]: the widget lets go of its layers, controls and
    listeners. *)
Definition remove (p : L.Panel) : M unit :=
  m ← theMap p;
  modify (set_panel p
    (L.with_listeners [] (L.with_controls [] (L.with_layers [] m)))).

(** [L.control.layers(baseLayers).addTo(map)]. *)
Definition controlLayersAddTo (bl : list (string * L.handle)) (p : L.Panel)
  : M unit :=
  m ← theMap p;
  modify (set_panel p (L.with_controls (L.layerControls m ++ [bl]) m)).

(** [map.on(types, fn)]: one registration per event type named. *)
Definition on (p : L.Panel) (types : list L.EventType) (fn : L.Listener)
  : M unit :=
  m ← theMap p;
  modify (set_panel p
    (L.with_listeners (L.listeners m ++ map (fun t => (t, fn)) types) m)).

(** [map.setView(center, zoom, {animate})]: the widget is asked for the
    view, takes the view it makes of the request under the options of
    the map, and emits its events, synchronously, to the listeners of
    that map; [fire] runs them. *)
Definition setView (fire : L.Panel -> L.ViewEvent -> M unit)
    (p : L.Panel) (c : L.LatLng) (z : Z) (animate : option bool) : M unit :=
  m ← theMap p;
  emit (ViewSet p c z animate);;
  let before := (L.center m, L.zoom m) in
  let after := setView_view (L.mapOptions m) before (c, z) in
  modify (set_panel p (L.with_view after.1 after.2 m));;
  forEach (fire p) (setView_emits before after).

(** *** updateHistoricalLayer *)

Definition folderValue (f : option string) : Value :=
  match f with
  | Some s => VString s
  | None => VNull
  end.

(** [TILE_FOLDER_MAP[city] ? TILE_FOLDER_MAP[city][year] : null] *)
Definition lookupFolder (T : Catalog) (city year : string) : exn + Value :=
  match T !! city with
  | Some years => inr (get folderValue years year)
  | None =>
      let inherited := object_prototype_get city in
      if truthy inherited then realm_get inherited year else inr VNull
  end.

Definition historicalOptions : L.TileLayerOptions :=
  {| L.maxZoom := 19; L.minZoom := 9; L.attribution := None;
     L.tms := Some false; L.noWrap := Some true |}.

Definition warning (city year : string) : string :=
  "Tiles for " ++ city ++ " year " ++ year
  ++ " are not yet available. Showing background only.".

Definition tileUrlOf (folder : string) : string :=
  "tiles/" ++ folder ++ "/{z}/{x}/{y}.png".

(** [updateHistoricalLayer(city, year)] over the catalog [T]. *)
Definition updateHistoricalLayerIn (T : Catalog) (city year : string)
  : M unit :=
  folder ← lift (lookupFolder T city year);
  if negb (truthy folder) then
    emit (Warned (warning city year));;
    hl ← gets histLayer;
    match hl with
    | Some h =>
        removeLayer L.Map1 h;;
        modify (set_histLayer None)
    | None => mret tt
    end
  else
    name ← lift (to_string folder);
    let tileUrl := tileUrlOf name in
    hl ← gets histLayer;
    match hl with
    | Some h => setUrl h tileUrl
    | None =>
        h ← tileLayer tileUrl historicalOptions;
        h ← addTo h L.Map1;
        modify (set_histLayer (Some h))
    end.

Definition updateHistoricalLayer : string -> string -> M unit :=
  updateHistoricalLayerIn TILE_FOLDER_MAP.

(** *** View synchronisation *)

(** [syncView(fromMap, toMap)] *)
Definition syncView (fire : L.Panel -> L.ViewEvent -> M unit)
    (fromMap toMap : L.Panel) : M unit :=
  busy ← gets syncing;
  if (busy : bool) then mret tt
  else
    emit (GuardSet true);;
    modify (set_syncing true);;
    from ← theMap fromMap;
    let center := L.center from in
    let zoom := L.zoom from in
    setView fire toMap center zoom (Some false);;
    emit (GuardSet false);;
    modify (set_syncing false).

(** *** Cursor mirroring *)

(** What [updateCursors] reads from a mouse event: the pointer, and
    where the container of the map that fired it lies on the screen. *)
Record Pointer := {
  clientX : number;
  clientY : number;
  rectLeft : number;
  rectTop : number
}.

Definition theCursor (g : State -> option L.handle) : M L.handle := fun st =>
  match g st with
  | Some h => Normal h st
  | None => Thrown "TypeError: the cursor is undefined" st
  end.

Definition with_left (v : string) (c : Cursor) : Cursor :=
  {| className := className c; parentId := parentId c;
     styleLeft := v; styleTop := styleTop c |}.

Definition with_top (v : string) (c : Cursor) : Cursor :=
  {| className := className c; parentId := parentId c;
     styleLeft := styleLeft c; styleTop := v |}.

Definition setStyle (g : State -> option L.handle) (f : Cursor -> Cursor)
  : M unit :=
  h ← theCursor g;
  modify (fun st => set_elements (alter f h (elements st)) st).

Definition px (n : number) : string := number_to_string n ++ "px".

(** [updateCursors(e)] *)
Definition updateCursors (e : Pointer) : M unit :=
  let x := number_sub (clientX e) (rectLeft e) in
  let y := number_sub (clientY e) (rectTop e) in
  setStyle cursor1 (with_left (px x));;
  setStyle cursor1 (with_top (px y));;
  setStyle cursor2 (with_left (px x));;
  setStyle cursor2 (with_top (px y)).

(** [createCursor(mapEl)], with the id of [mapEl]. *)
Definition createCursor (mapId : string) : M L.handle :=
  h ← gets (fun st => length (elements st));
  modify (fun st =>
    set_elements
      (elements st ++ [{| className := "cursor"; parentId := mapId;
                          styleLeft := ""; styleTop := "" |}]) st);;
  modify (fun st => set_documentCursors (documentCursors st ++ [h]) st);;
  mret h.

(** *** Events *)

Inductive Event :=
| ViewChanged (v : L.ViewEvent)
| MouseMoved (e : Pointer).

Definition eventType (e : Event) : L.EventType :=
  match e with
  | ViewChanged v => L.OnView v
  | MouseMoved _ => L.OnMouseMove
  end.

Definition listenersFor (t : L.EventType) (m : L.Map) : list L.Listener :=
  (filter (fun r => r.1 = t) (L.listeners m)).*2.

(** The widget runs the listeners of map [p] for event [e]. A listener
    that moves the other map makes that map fire in turn, inside the
    call: [fuel] bounds the nesting. *)
Fixpoint fire (fuel : nat) (p : L.Panel) (e : Event) : M unit :=
  match fuel with
  | O => fun _ => Unfinished
  | S fuel' =>
      m ← theMap p;
      forEach
        (fun fn =>
           match fn with
           | L.SyncView fromMap toMap =>
               syncView (fun q v => fire fuel' q (ViewChanged v)) fromMap toMap
           | L.UpdateCursors =>
               match e with
               | MouseMoved ptr => updateCursors ptr
               | ViewChanged _ =>
                   throw "TypeError: e.originalEvent is undefined"
               end
           end)
        (listenersFor (eventType e) m)
  end.

(** The user pans or zooms panel [p] to [(c, z)]: the widget takes the
    view and fires [v] on that panel. *)
Definition gesture (fuel : nat) (p : L.Panel) (c : L.LatLng) (z : Z)
    (v : L.ViewEvent) : M unit :=
  m ← theMap p;
  modify (set_panel p (L.with_view c z m));;
  fire fuel p (ViewChanged v).

(** *** initMaps *)

Definition osmUrl : string :=
  "https://{s}.tile.openstreetmap.org/{z}/{x}/{y}.png".

Definition googleSatUrl : string :=
  "https://mt1.google.com/vt/lyrs=s&x={x}&y={y}&z={z}".

Definition baseOptions (attr : string) : L.TileLayerOptions :=
  {| L.maxZoom := 19; L.minZoom := 9; L.attribution := Some attr;
     L.tms := None; L.noWrap := None |}.

Definition mapOptions : L.MapOptions :=
  {| L.zoomControl := false; L.attributionControl := false;
     L.maxBounds := bounds |}.

(** [centerCoords[city]] as the argument of [setView]: a name the table
    lacks reads [undefined] or a property of [Object.prototype], and the
    widget throws on a center that is no coordinate pair. *)
Definition centerOf (city : string) : M L.LatLng :=
  match centerCoords !! city with
  | Some (la, lo) => mret (L.latLng la lo)
  | None => throw "TypeError: not a coordinate"
  end.

Definition viewEvents : list L.EventType :=
  [L.OnView L.Move; L.OnView L.Zoom].

(** [initMaps(city, initialYear)] *)
Definition initMaps (city initialYear : string) : M unit :=
  old ← gets map1;
  match old : option L.Map with
  | Some _ => remove L.Map1;; remove L.Map2
  | None => mret tt
  end;;
  osmLayer ← tileLayer osmUrl (baseOptions "&copy; OSM contributors");
  c ← centerOf city;
  newMap L.Map1 "map1" mapOptions c 13;;
  addTo osmLayer L.Map1;;
  c ← centerOf city;
  newMap L.Map2 "map2" mapOptions c 13;;
  osmLayerForMap2 ← tileLayer osmUrl (baseOptions "&copy; OSM contributors");
  googleSatLayer ← tileLayer googleSatUrl (baseOptions "&copy; Google Satellite");
  addTo googleSatLayer L.Map2;;
  let bl := [("OpenStreetMap", osmLayerForMap2);
             ("Satellite Imagery", googleSatLayer)] in
  modify (set_baseLayers (Some bl));;
  controlLayersAddTo bl L.Map2;;
  updateHistoricalLayer city initialYear;;
  modify (set_syncing false);;
  on L.Map1 viewEvents (L.SyncView L.Map1 L.Map2);;
  on L.Map2 viewEvents (L.SyncView L.Map2 L.Map1);;
  modify (set_documentCursors []);;
  c1 ← createCursor "map1";
  modify (set_cursor1 (Some c1));;
  c2 ← createCursor "map2";
  modify (set_cursor2 (Some c2));;
  on L.Map1 [L.OnMouseMove] L.UpdateCursors;;
  on L.Map2 [L.OnMouseMove] L.UpdateCursors.

End Script.

(** ** A realm and a widget to run the script in

    The objects a read on one of the script's literals can return, and
    what a second read on them returns, as ECMA-262 lists them:
    [Object.prototype], its methods, and the constructor [Object]; the
    latter two are functions and inherit from [Function.prototype], the
    function named by the empty string. A function is rendered as V8
    renders it. Numbers are whole pixels. The widget emits as Leaflet's [_move] does: [zoom]
    when the zoom level changes, then [move]. *)

Module Sample.

Inductive Builtin :=
| ObjectPrototype
| BuiltinFunction (name : string) (arity : Z)
| Num (n : Z).

Definition objectPrototypeMethods : gmap string Z :=
  list_to_map
    [ ("hasOwnProperty", 1); ("isPrototypeOf", 1);
      ("propertyIsEnumerable", 1); ("toLocaleString", 0); ("toString", 0);
      ("valueOf", 0); ("__defineGetter__", 2); ("__defineSetter__", 2);
      ("__lookupGetter__", 1); ("__lookupSetter__", 1) ].

Definition functionPrototypeMethods : gmap string Z :=
  list_to_map [ ("apply", 2); ("bind", 1); ("call", 1); ("toString", 0) ].

Definition objectStatics : gmap string Z :=
  list_to_map
    [ ("assign", 2); ("create", 2); ("defineProperties", 2);
      ("defineProperty", 3); ("entries", 1); ("freeze", 1);
      ("fromEntries", 1); ("getOwnPropertyDescriptor", 2);
      ("getOwnPropertyDescriptors", 1); ("getOwnPropertyNames", 1);
      ("getOwnPropertySymbols", 1); ("getPrototypeOf", 1); ("groupBy", 2);
      ("hasOwn", 2); ("is", 2); ("isExtensible", 1); ("isFrozen", 1);
      ("isSealed", 1); ("keys", 1); ("preventExtensions", 1); ("seal", 1);
      ("setPrototypeOf", 2); ("values", 1) ].

Definition functionPrototype : Builtin := BuiltinFunction "" 0.

Definition method (table : gmap string Z) (k : string)
  : option (value Builtin) :=
  (fun n => VIntrinsic (BuiltinFunction k n)) <$> table !! k.

(** A read that reaches [Object.prototype] from an object whose
    prototype is [proto]. *)
Definition fromObjectPrototype (proto : value Builtin) (k : string)
  : value Builtin :=
  if String.eqb k "constructor" then VIntrinsic (BuiltinFunction "Object" 1)
  else if String.eqb k "__proto__" then proto
  else default VUndefined (method objectPrototypeMethods k).

(** A read that reaches [Function.prototype] from the function [name]. *)
Definition fromFunctionPrototype (name k : string) : exn + value Builtin :=
  if String.eqb k "constructor"
  then inr (VIntrinsic (BuiltinFunction "Function" 1))
  else if String.eqb k "caller" || String.eqb k "arguments"
  then inl "TypeError: 'caller', 'callee', and 'arguments' properties may not be accessed"
  else
    match method functionPrototypeMethods k with
    | Some f => inr f
    | None =>
        inr (fromObjectPrototype
               (if String.eqb name "" then VIntrinsic ObjectPrototype
                else VIntrinsic functionPrototype) k)
    end.

Definition builtinGet (v : value Builtin) (k : string) : exn + value Builtin :=
  match v with
  | VIntrinsic (BuiltinFunction name arity) =>
      if String.eqb k "name" then inr (VString name)
      else if String.eqb k "length" then inr (VIntrinsic (Num arity))
      else if String.eqb name "Object" && String.eqb k "prototype"
      then inr (VIntrinsic ObjectPrototype)
      else
        match (if String.eqb name "Object" then method objectStatics k
               else None) with
        | Some f => inr f
        | None => fromFunctionPrototype name k
        end
  | VIntrinsic ObjectPrototype => inr (fromObjectPrototype VNull k)
  | _ => inr VUndefined
  end.

#[global] Instance realm : Realm := {|
  intrinsic := Builtin;
  intrinsic_truthy i := match i with Num 0 => false | _ => true end;
  intrinsic_to_string i :=
    match i with
    | ObjectPrototype => inr "[object Object]"
    | BuiltinFunction name _ =>
        inr ("function " ++ name ++ "() { [native code] }")
    | Num n => inr (pretty n)
    end;
  object_prototype_get := fromObjectPrototype (VIntrinsic ObjectPrototype);
  realm_get := builtinGet;
  number := Z;
  number_sub := Z.sub;
  number_to_string := pretty
|}.

(** A widget that honours [maxBounds] in the plainest way: a center
    asked for is moved into the bounds, coordinate by coordinate, and
    the zoom is taken as asked; a request for the view on display is no
    move at all. Leaflet does more to the view (it keeps the whole
    viewport inside the bounds and, while the zoom stays, pans by whole
    pixels); [Widget] leaves room for that as well. *)
Definition between (lo hi x : Q) : Q :=
  if Qle_bool x lo then lo else if Qle_bool hi x then hi else x.

Definition inside (b : L.LatLngBounds) (c : L.LatLng) : L.LatLng :=
  L.latLng
    (between (L.lat (L.southWest b)) (L.lat (L.northEast b)) (L.lat c))
    (between (L.lng (L.southWest b)) (L.lng (L.northEast b)) (L.lng c)).

Definition limited (o : L.MapOptions) (old new : L.LatLng * Z)
  : L.LatLng * Z :=
  if decide (new = old) then old else (inside (L.maxBounds o) new.1, new.2).

#[global] Instance leaflet : Widget.
Proof.
  refine {|
    setView_view := limited;
    setView_emits old new :=
      ((if decide (old.2 = new.2) then [] else [L.Zoom]) ++ [L.Move])%list
  |}.
  intros o v. unfold limited. by rewrite decide_True.
Defined.

(** Page sessions to run statements in. [dresden]: the script on
    [dresden.html] with 1833 selected. [munich]: on [munich.html] with
    1400 selected, for which the catalog has [null]. [dragged]:
    [dresden] once the widget of the historical panel has taken a new
    view from the user, before it fires its event. *)
Definition dresden : State :=
  final_state pageLoaded (initMaps "dresden" "1833" pageLoaded).

Definition munich : State :=
  final_state pageLoaded (initMaps "munich" "1400" pageLoaded).

Definition draggedTo : L.LatLng := L.latLng 51.06 13.74.

Definition dragged : State :=
  final_state dresden
    ((m ← theMap L.Map1;
      modify (set_panel L.Map1 (L.with_view draggedTo 15 m))) dresden).

(** [overdragged]: [dresden] while the user drags the historical panel
    past the northern edge of [bounds], before the widget fires the
    event. *)
Definition draggedPast : L.LatLng := L.latLng 72 13.74.

Definition overdragged : State :=
  final_state dresden
    ((m ← theMap L.Map1;
      modify (set_panel L.Map1 (L.with_view draggedPast 13 m))) dresden).

Definition pointer : Pointer :=
  {| clientX := 640; clientY := 300; rectLeft := 600; rectTop := 100 |}.

(** A catalog with an entry whose folder is the empty string. *)
Definition emptyFolderCatalog : Catalog :=
  {[ "rome" := {[ "1900" := Some "" ]} ]}.

End Sample.

(** ** What the specification speaks of *)

Section Notions.
Context `{R : Realm} `{W : Widget}.

(** The historical layer switcher is a state machine over Absent and
    Present(url). [histLayer] is its handle. *)
Definition absent (st : State) : Prop := histLayer st = None.

Definition attached (st : State) (h : L.handle) : Prop :=
  exists m, map1 st = Some m /\ h ∈ L.mapLayers m.

Definition present (st : State) (u : string) : Prop :=
  exists h l,
    histLayer st = Some h /\ layers st !! h = Some l /\ L.url l = u /\
    attached st h.

(** A layer configured the way [updateHistoricalLayer] configures the
    ones it creates; the base layers carry an attribution instead. *)
Definition isHistorical (st : State) (h : L.handle) : Prop :=
  L.layerOptions <$> layers st !! h = Some historicalOptions.

#[global] Instance isHistorical_dec st h : Decision (isHistorical st h).
Proof. unfold isHistorical. apply _. Defined.

(** At most one historical layer: the historical layers on the primary
    map are the one [histLayer] points to, or none while it is [null].
    Before the maps exist there is no layer at all. *)
Definition layerInvariant (st : State) : Prop :=
  match map1 st with
  | None => histLayer st = None
  | Some m =>
      NoDup (L.mapLayers m) /\
      Forall (fun h => h < length (layers st))%nat (L.mapLayers m) /\
      filter (isHistorical st) (L.mapLayers m) = option_list (histLayer st)
  end.

#[global] Instance layerInvariant_dec st : Decision (layerInvariant st).
Proof. unfold layerInvariant. destruct (map1 st); apply _. Defined.

(** The block under [if (!folder)]. *)
Definition absentBranch (city year : string) : M unit :=
  emit (Warned (warning city year));;
  hl ← gets histLayer;
  match hl with
  | Some h =>
      removeLayer L.Map1 h;;
      modify (set_histLayer None)
  | None => mret tt
  end.

(** The page name a path stands for, as [getCurrentCity] computes it,
    and the city a page name resolves to. *)
Definition pageName (pathname : string) : option string :=
  Str.replace ".html" "" <$> Str.pop (Str.split "/" pathname).

Definition resolve (filename : string) : Value :=
  let found := get VString cityMap filename in
  if truthy found then found else VString "munich".

(** The ways in which the catalog [T] holds no folder for a city and a
    year: the entry is [null], the entry is the empty string, the city's
    catalog has no such year, there is no such city. In the last two the
    read falls through to [Object.prototype], which must have nothing
    truthy under that name. *)
Inductive Unavailable (T : Catalog) (city year : string) : Prop :=
| markedAbsent years :
    T !! city = Some years -> years !! year = Some None ->
    Unavailable T city year
| emptyFolder years :
    T !! city = Some years -> years !! year = Some (Some "") ->
    Unavailable T city year
| noYear years :
    T !! city = Some years -> years !! year = None ->
    truthy (object_prototype_get year) = false ->
    Unavailable T city year
| noCity :
    T !! city = None ->
    truthy (object_prototype_get city) = false ->
    Unavailable T city year.

(** The listeners [initMaps] leaves on panel [p]. *)
Definition installed (p : L.Panel) : list (L.EventType * L.Listener) :=
  [ (L.OnView L.Move, L.SyncView p (L.other p));
    (L.OnView L.Zoom, L.SyncView p (L.other p));
    (L.OnMouseMove, L.UpdateCursors) ].

(** Between two events: both panels exist and carry the listeners of
    [initMaps], the guard is down, both cursor indicators exist. *)
Definition ready (st : State) : Prop :=
  (exists m1, map1 st = Some m1 /\ L.listeners m1 = installed L.Map1) /\
  (exists m2, map2 st = Some m2 /\ L.listeners m2 = installed L.Map2) /\
  syncing st = false /\
  (exists h1, cursor1 st = Some h1 /\ h1 < length (elements st))%nat /\
  (exists h2, cursor2 st = Some h2 /\ h2 < length (elements st))%nat.

(** Map [m'] once it has been asked for the view of map [m]. *)
Definition synced (m m' : L.Map) : L.Map :=
  let v := setView_view (L.mapOptions m') (L.center m', L.zoom m')
             (L.center m, L.zoom m) in
  L.with_view v.1 v.2 m'.

(** The state in which the other panel's events are emitted: guard up,
    the other panel asked for the view. *)
Definition copying (p : L.Panel) (m m' : L.Map) (st : State) : State :=
  set_panel (L.other p) (synced m m')
    (set_trace
       (trace st ++
        [GuardSet true;
         ViewSet (L.other p) (L.center m) (L.zoom m) (Some false)])
       (set_syncing true st)).

(** The state after the copy. *)
Definition copied (p : L.Panel) (m m' : L.Map) (st : State) : State :=
  set_trace
    (trace st ++
     [GuardSet true;
      ViewSet (L.other p) (L.center m) (L.zoom m) (Some false);
      GuardSet false])
    (set_panel (L.other p) (synced m m') st).

(** The widgets as [initMaps] has built them when it calls
    [updateHistoricalLayer], on a page just loaded. *)
Definition built (c : L.LatLng) : State :=
  let osm := {| L.url := osmUrl;
                L.layerOptions := baseOptions "&copy; OSM contributors" |} in
  let sat := {| L.url := googleSatUrl;
                L.layerOptions := baseOptions "&copy; Google Satellite" |} in
  let bl := [("OpenStreetMap", 1%nat); ("Satellite Imagery", 2%nat)] in
  {| layers := [osm; osm; sat];
     elements := []; documentCursors := [];
     map1 := Some {| L.container := "map1"; L.mapOptions := mapOptions;
                     L.center := c; L.zoom := 13;
                     L.mapLayers := [0%nat]; L.layerControls := [];
                     L.listeners := [] |};
     map2 := Some {| L.container := "map2"; L.mapOptions := mapOptions;
                     L.center := c; L.zoom := 13;
                     L.mapLayers := [2%nat]; L.layerControls := [bl];
                     L.listeners := [] |};
     cursor1 := None; cursor2 := None; histLayer := None;
     baseLayers := Some bl; syncing := false;
     trace := [LayerCreated 0%nat; ViewSet L.Map1 c 13 None;
               LayerAdded L.Map1 0%nat; ViewSet L.Map2 c 13 None;
               LayerCreated 1%nat; LayerCreated 2%nat;
               LayerAdded L.Map2 2%nat] |}.

(** The statements of [initMaps] after that call. *)
Definition wiring : M unit :=
  modify (set_syncing false);;
  on L.Map1 viewEvents (L.SyncView L.Map1 L.Map2);;
  on L.Map2 viewEvents (L.SyncView L.Map2 L.Map1);;
  modify (set_documentCursors []);;
  c1 ← createCursor "map1";
  modify (set_cursor1 (Some c1));;
  c2 ← createCursor "map2";
  modify (set_cursor2 (Some c2));;
  on L.Map1 [L.OnMouseMove] L.UpdateCursors;;
  on L.Map2 [L.OnMouseMove] L.UpdateCursors.

(** One event of the page: the year dropdown changes, the user pans or
    zooms a panel, the pointer moves over a panel. *)
Inductive step : State -> State -> Prop :=
| step_year city year st c :
    updateHistoricalLayer city year st = c ->
    step st (final_state st c)
| step_gesture fuel p ctr z v st st' :
    gesture fuel p ctr z v st = Normal tt st' ->
    step st st'
| step_pointer fuel p e st st' :
    fire fuel p (MouseMoved e) st = Normal tt st' ->
    step st st'.

(** The states of a page session: the script runs [initMaps] once, then
    events follow. *)
Inductive reachable : State -> Prop :=
| reachable_init city year st :
    initMaps city year pageLoaded = Normal tt st ->
    reachable st
| reachable_step st st' :
    reachable st -> step st st' -> reachable st'.

End Notions.

(** ** The rest of the script *)

Section Page.
Context `{R : Realm} `{W : Widget}.

(** *** The statements at the top level *)

(** What the script finds in the page it is loaded in: the path of the
    address and, when the element [mapYearSelect] exists, the value
    selected in it. *)
Record Page := {
  pathname : string;
  mapYearSelect : option string
}.

(** [initialYear]: the value of the select, or ['1888'] without one. *)
Definition initialYear (pg : Page) : string :=
  match mapYearSelect pg with
  | Some value => value
  | None => "1888"
  end.

(** [initMaps(currentCity, initialYear)] for whatever [getCurrentCity]
    returned. The function uses [city] as a property key and inside a
    template literal only, and a value that is no string is converted
    to one at each use. When the conversion throws, the first use
    throws: [centerCoords[city]], the argument of the first [setView],
    after the old widgets are removed and the first layer is made. *)
Definition initMapsOf (city : Value) (year : string) : M unit :=
  match to_string city with
  | inr key => initMaps key year
  | inl e =>
      old ← gets map1;
      match old : option L.Map with
      | Some _ => remove L.Map1;; remove L.Map2
      | None => mret tt
      end;;
      tileLayer osmUrl (baseOptions "&copy; OSM contributors");;
      throw e
  end.

(** [updateHistoricalLayer(currentCity, selectedYear)], likewise: the
    first use is [TILE_FOLDER_MAP[city]], the first statement. *)
Definition updateHistoricalLayerOf (city : Value) (year : string) : M unit :=
  key ← lift (to_string city);
  updateHistoricalLayer key year.

(** The statements at the top level of the script, from
    [getCurrentCity()] to [initMaps(currentCity, initialYear)]. *)
Definition script (pg : Page) : M unit :=
  match getCurrentCity (pathname pg) with
  | None => throw "TypeError: cannot read properties of undefined"
  | Some currentCity => initMapsOf currentCity (initialYear pg)
  end.

(** The [change] listener of the select, for the value [selectedYear] of
    its target. It is registered only when the element exists, and it
    closes over the city resolved when the script ran. *)
Definition yearChanged (pg : Page) (selectedYear : string) : M unit :=
  match mapYearSelect pg, getCurrentCity (pathname pg) with
  | Some _, Some currentCity => updateHistoricalLayerOf currentCity selectedYear
  | _, _ => mret tt
  end.

(** *** More notions *)

(** The widgets as [initMaps] has built them when it calls
    [updateHistoricalLayer], from any state: three new layers, two new
    maps; the other globals are as they were. *)
Definition rebuilt (c : L.LatLng) (st : State) : State :=
  let n := length (layers st) in
  let osm := {| L.url := osmUrl;
                L.layerOptions := baseOptions "&copy; OSM contributors" |} in
  let sat := {| L.url := googleSatUrl;
                L.layerOptions := baseOptions "&copy; Google Satellite" |} in
  let bl := [("OpenStreetMap", S n); ("Satellite Imagery", S (S n))] in
  {| layers := layers st ++ [osm; osm; sat];
     elements := elements st; documentCursors := documentCursors st;
     map1 := Some {| L.container := "map1"; L.mapOptions := mapOptions;
                     L.center := c; L.zoom := 13;
                     L.mapLayers := [n]; L.layerControls := [];
                     L.listeners := [] |};
     map2 := Some {| L.container := "map2"; L.mapOptions := mapOptions;
                     L.center := c; L.zoom := 13;
                     L.mapLayers := [S (S n)]; L.layerControls := [bl];
                     L.listeners := [] |};
     cursor1 := cursor1 st; cursor2 := cursor2 st; histLayer := histLayer st;
     baseLayers := Some bl; syncing := syncing st;
     trace := trace st ++
              [LayerCreated n; ViewSet L.Map1 c 13 None; LayerAdded L.Map1 n;
               ViewSet L.Map2 c 13 None; LayerCreated (S n);
               LayerCreated (S (S n)); LayerAdded L.Map2 (S (S n))] |}.

(** The view of a panel, if the panel exists. *)
Definition viewOf (p : L.Panel) (st : State) : option (L.LatLng * Z) :=
  (fun m => (L.center m, L.zoom m)) <$> panel p st.


(** The layers on the primary map are the base layer [initMaps] put
    there first, which is the OpenStreetMap layer, and after it the
    historical layer, if there is one. *)
Definition baseAt (b : L.handle) (st : State) : Prop :=
  exists m l,
    map1 st = Some m /\
    L.mapLayers m = b :: option_list (histLayer st) /\
    layers st !! b = Some l /\
    L.url l = osmUrl /\ ~ isHistorical st b.

Definition baseKept (st : State) : Prop := exists b, baseAt b st.

(** The document holds exactly the two cursor indicators of
    [initMaps], one in each container, and they are at the same
    position. *)
Definition cursorsAligned (st : State) : Prop :=
  exists h1 h2 c1 c2,
    cursor1 st = Some h1 /\ cursor2 st = Some h2 /\ h1 ≠ h2 /\
    documentCursors st = [h1; h2] /\
    elements st !! h1 = Some c1 /\ elements st !! h2 = Some c2 /\
    className c1 = "cursor" /\ className c2 = "cursor" /\
    parentId c1 = "map1" /\ parentId c2 = "map2" /\
    styleLeft c1 = styleLeft c2 /\ styleTop c1 = styleTop c2.

(** The two together. *)
Definition steady (st : State) : Prop :=
  baseKept st /\ cursorsAligned st.

End Page.

(** *** The fullscreen button *)

Module Fullscreen.

(** The standard API and the three prefixed ones, in the order in which
    the script tries them. *)
Inductive Vendor := Standard | Webkit | Moz | Ms.

(** What the click listener reads at a click, each as the truth value
    the script tests: whether [document.fullscreenElement],
    [webkitFullscreenElement], [mozFullScreenElement],
    [msFullscreenElement] name an element; whether
    [document.exitFullscreen], [webkitExitFullscreen],
    [mozCancelFullScreen], [msExitFullscreen] exist; whether
    [mainContent.requestFullscreen], [webkitRequestFullscreen],
    [mozRequestFullScreen], [msRequestFullscreen] exist. *)
Record Browser := {
  fullscreenElement : Vendor -> bool;
  exitMethod : Vendor -> bool;
  requestMethod : Vendor -> bool
}.

(** What the listener does: one call, on the document or on the main
    content, an alert, or nothing. *)
Inductive Action :=
| Exit (v : Vendor)
| Request (v : Vendor)
| Alert (msg : string)
| Nothing.

(** The click listener of the fullscreen button. *)
Definition click (b : Browser) : Action :=
  let isFullscreen :=
    fullscreenElement b Standard || fullscreenElement b Webkit ||
    fullscreenElement b Moz || fullscreenElement b Ms in
  if isFullscreen then
    if exitMethod b Standard then Exit Standard
    else if exitMethod b Webkit then Exit Webkit
    else if exitMethod b Moz then Exit Moz
    else if exitMethod b Ms then Exit Ms
    else Nothing
  else
    if requestMethod b Standard then Request Standard
    else if requestMethod b Webkit then Request Webkit
    else if requestMethod b Moz then Request Moz
    else if requestMethod b Ms then Request Ms
    else Alert "Your browser doesn't support fullscreen mode. Try pressing F11 instead.".

(** [v] comes before [w] in the order of the attempts. *)
Definition before (v w : Vendor) : bool :=
  match v, w with
  | Standard, (Webkit | Moz | Ms) => true
  | Webkit, (Moz | Ms) => true
  | Moz, Ms => true
  | _, _ => false
  end.

(** The callback that [handleFullscreenChange] hands to [setTimeout]:
    the widgets on which [invalidateSize] is called, those that exist. *)
Definition resized (st : State) : list L.Panel :=
  (match map1 st with Some _ => [L.Map1] | None => [] end ++
   match map2 st with Some _ => [L.Map2] | None => [] end)%list.

End Fullscreen.

(** *** Pages and a longer session *)

Module Visit.

(** [later]: the session [Sample.dresden] after a zoom on the modern
    panel, a pointer move over the historical panel and a change of the
    year to 1878. *)
Definition zoomed : State :=
  final_state Sample.dresden
    (gesture 2 L.Map2 Sample.draggedTo 15 L.Zoom Sample.dresden).

Definition pointed : State :=
  final_state zoomed (fire 1 L.Map1 (MouseMoved Sample.pointer) zoomed).

Definition later : State :=
  final_state pointed (updateHistoricalLayer "dresden" "1878" pointed).

(** The page of Dresden with 1833 selected, and pages without the
    select. *)
Definition dresdenPage : Page :=
  {| pathname := "/maps/dresden.html"; mapYearSelect := Some "1833" |}.

Definition viennaPage : Page :=
  {| pathname := "/cartorewind/vienna.html"; mapYearSelect := None |}.

End Visit.

(** * Properties *)

Section Properties.
Context `{R : Realm} `{W : Widget}.

(** ** Running statements *)

Ltac unfold_stmt :=
  unfold updateHistoricalLayer, updateHistoricalLayerIn, absentBranch,
    removeLayer, setUrl, tileLayer, addTo, theMap, emit, lift, throw, gets,
    modify, mbind, M_bind, mret, M_ret in *.

Lemma forEach_app {A} (f : A -> M unit) (l1 l2 : list A) (st : State) :
  forEach f (l1 ++ l2) st =
  (forEach f l1;; forEach f l2) st.
Proof.
  revert st. induction l1 as [|a l1 IH]; intros st; [reflexivity|].
  cbn. unfold mbind, M_bind. destruct (f a st); [|reflexivity..].
  apply IH.
Qed.

(** Listeners that return at once leave the state as it is. *)
Lemma forEach_skip {A} (f : A -> M unit) (l : list A) (st : State) :
  (forall a, a ∈ l -> f a st = Normal tt st) ->
  forEach f l st = Normal tt st.
Proof.
  induction l as [|a l IH]; intros Hf; [reflexivity|].
  cbn. unfold mbind, M_bind. rewrite Hf by set_solver.
  apply IH. intros b Hb. apply Hf. set_solver.
Qed.

(** ** The catalog *)

Lemma folderValue_truthy (f : option string) :
  truthy (folderValue f) = true <-> exists s, f = Some s /\ s ≠ "".
Proof.
  destruct f as [s|]; cbn.
  - rewrite negb_true_iff. split.
    + intros Hs. exists s. split; [done|]. intros ->. done.
    + intros (s' & [= <-] & Hne). by apply String.eqb_neq.
  - split; [done|]. by intros (? & ? & ?).
Qed.

(** An own entry shadows whatever [Object.prototype] has. *)
Lemma lookupFolder_own (T : Catalog) city year years f :
  T !! city = Some years -> years !! year = Some f ->
  lookupFolder T city year = inr (folderValue f).
Proof. intros HT Hy. unfold lookupFolder, get. by rewrite HT, Hy. Qed.

Lemma lookupFolder_no_year (T : Catalog) city year years :
  T !! city = Some years -> years !! year = None ->
  lookupFolder T city year = inr (object_prototype_get year).
Proof. intros HT Hy. unfold lookupFolder, get. by rewrite HT, Hy. Qed.

Lemma lookupFolder_no_city (T : Catalog) city year :
  T !! city = None -> truthy (object_prototype_get city) = false ->
  lookupFolder T city year = inr VNull.
Proof. intros HT Hc. unfold lookupFolder. by rewrite HT, Hc. Qed.

(** Every folder that [TILE_FOLDER_MAP] names is a non-empty string. *)
Lemma TILE_FOLDER_MAP_folders city year years folder :
  TILE_FOLDER_MAP !! city = Some years ->
  years !! year = Some (Some folder) ->
  folder ≠ "".
Proof.
  unfold TILE_FOLDER_MAP. intros HT Hy.
  apply elem_of_list_to_map_2 in HT.
  repeat (apply elem_of_cons in HT as [HT|HT];
    [ injection HT as -> ->;
      repeat (apply lookup_insert_Some in Hy as [[_ Hy]|[_ Hy]];
              [by simplify_eq|]);
      by rewrite lookup_empty in Hy |]).
  by apply elem_of_nil in HT.
Qed.

(** ** updateHistoricalLayer, branch by branch *)

(** A falsy folder: the function is the Absent branch, whichever falsy
    value it is. *)
Lemma updateHistoricalLayerIn_falsy (T : Catalog) city year v st :
  lookupFolder T city year = inr v -> truthy v = false ->
  updateHistoricalLayerIn T city year st = absentBranch city year st.
Proof. intros Hl Hv. unfold_stmt. by rewrite Hl, Hv. Qed.

Lemma absentBranch_none city year st :
  histLayer st = None ->
  absentBranch city year st =
  Normal tt (set_trace (trace st ++ [Warned (warning city year)]) st).
Proof. intros Hh. unfold_stmt. cbn. by rewrite Hh. Qed.

Lemma absentBranch_some city year st h m :
  histLayer st = Some h -> map1 st = Some m ->
  exists st',
    absentBranch city year st = Normal tt st' /\
    histLayer st' = None /\
    map1 st' =
      Some (L.with_layers (filter (fun h' => h' ≠ h) (L.mapLayers m)) m) /\
    layers st' = layers st /\
    trace st' =
      (trace st ++ [Warned (warning city year); LayerRemoved L.Map1 h])%list /\
    map2 st' = map2 st /\ syncing st' = syncing st /\
    cursor1 st' = cursor1 st /\ cursor2 st' = cursor2 st /\
    elements st' = elements st.
Proof.
  intros Hh Hm. unfold_stmt. cbn. rewrite Hh. cbn. rewrite Hm. cbn.
  eexists. split; [reflexivity|]. cbn. rewrite <- app_assoc.
  by repeat split.
Qed.

(** A truthy folder, layer Present: the URL of the same object is set. *)
Lemma updateHistoricalLayerIn_rebind (T : Catalog) city year v name st h :
  lookupFolder T city year = inr v -> truthy v = true ->
  to_string v = inr name ->
  histLayer st = Some h ->
  updateHistoricalLayerIn T city year st =
  Normal tt
    (set_layers (alter (L.with_url (tileUrlOf name)) h (layers st))
       (set_trace (trace st ++ [UrlSet h (tileUrlOf name)]) st)).
Proof.
  intros Hl Hv Hs Hh. unfold_stmt. rewrite Hl, Hv. cbn. rewrite Hs. cbn.
  by rewrite Hh.
Qed.

(** A truthy folder, layer Absent: a new layer is made and attached. *)
Lemma updateHistoricalLayerIn_create (T : Catalog) city year v name st m :
  lookupFolder T city year = inr v -> truthy v = true ->
  to_string v = inr name ->
  histLayer st = None -> map1 st = Some m ->
  let h := length (layers st) in
  exists st',
    updateHistoricalLayerIn T city year st = Normal tt st' /\
    histLayer st' = Some h /\
    layers st' =
      (layers st ++ [{| L.url := tileUrlOf name;
                        L.layerOptions := historicalOptions |}])%list /\
    map1 st' =
      Some (if bool_decide (h ∈ L.mapLayers m) then m
            else L.with_layers (L.mapLayers m ++ [h]) m) /\
    trace st' = (trace st ++ [LayerCreated h; LayerAdded L.Map1 h])%list /\
    map2 st' = map2 st /\ syncing st' = syncing st /\
    cursor1 st' = cursor1 st /\ cursor2 st' = cursor2 st /\
    elements st' = elements st.
Proof.
  intros Hl Hv Hs Hh Hm h. unfold_stmt. rewrite Hl, Hv. cbn. rewrite Hs. cbn.
  rewrite Hh. cbn. rewrite Hm. cbn.
  eexists. split; [reflexivity|]. cbn. rewrite <- app_assoc.
  by repeat split.
Qed.

(** When the call throws, it throws before it has changed anything but
    the store of layers and the trace. *)
Lemma updateHistoricalLayerIn_thrown (T : Catalog) city year st e st' :
  updateHistoricalLayerIn T city year st = Thrown e st' ->
  histLayer st' = histLayer st /\ map1 st' = map1 st /\ map2 st' = map2 st /\
  syncing st' = syncing st /\ cursor1 st' = cursor1 st /\
  cursor2 st' = cursor2 st /\ elements st' = elements st /\
  (map1 st = None \/ st' = st).
Proof.
  unfold_stmt.
  destruct (lookupFolder T city year) as [e'|v]; cbn.
  { intros [= _ <-]. naive_solver. }
  destruct (truthy v); cbn.
  - destruct (to_string v) as [e'|name]; cbn.
    { intros [= _ <-]. naive_solver. }
    destruct (histLayer st) as [h|] eqn:Hh; cbn; [done|].
    destruct (map1 st) as [m|] eqn:Hm; cbn; [done|].
    intros [= _ <-]. cbn. naive_solver.
  - destruct (histLayer st) as [h|] eqn:Hh; cbn; [|done].
    destruct (map1 st) as [m|] eqn:Hm; cbn; [done|].
    intros [= _ <-]. cbn. naive_solver.
Qed.

Lemma updateHistoricalLayerIn_finishes (T : Catalog) city year st :
  updateHistoricalLayerIn T city year st ≠ Unfinished.
Proof.
  unfold_stmt.
  destruct (lookupFolder T city year) as [e'|v]; cbn; [done|].
  destruct (truthy v); cbn.
  - destruct (to_string v) as [e'|name]; cbn; [done|].
    destruct (histLayer st) as [h|]; cbn; [done|].
    by destruct (map1 st) as [m|]; cbn.
  - destruct (histLayer st) as [h|]; cbn; [|done].
    by destruct (map1 st) as [m|]; cbn.
Qed.

(** ** The layer invariant *)

(** Whether a handle counts as historical depends on the options of its
    layer only. *)
Lemma filter_isHistorical_ext (st st' : State) (l : list L.handle) :
  (forall h, h ∈ l ->
     L.layerOptions <$> layers st' !! h = L.layerOptions <$> layers st !! h) ->
  filter (isHistorical st') l = filter (isHistorical st) l.
Proof.
  induction l as [|h l IH]; intros Hl; [done|].
  assert (isHistorical st' h <-> isHistorical st h) as Hiff.
  { unfold isHistorical. by rewrite (Hl h) by set_solver. }
  specialize (IH (fun h' Hin => Hl h' (list_elem_of_further _ _ _ Hin))).
  destruct (decide (isHistorical st h)) as [Hh|Hh].
  - rewrite !filter_cons_True by tauto. by rewrite IH.
  - rewrite !filter_cons_False by tauto. done.
Qed.

Lemma layerOptions_alter_url u h (ls : list L.TileLayer) h' :
  L.layerOptions <$> alter (L.with_url u) h ls !! h' =
  L.layerOptions <$> ls !! h'.
Proof.
  destruct (decide (h = h')) as [->|Hne].
  - rewrite list_lookup_alter. rewrite decide_True by done.
    by destruct (ls !! h').
  - by rewrite list_lookup_alter_ne.
Qed.

Lemma layerInvariant_histLayer st h :
  layerInvariant st -> histLayer st = Some h ->
  (h < length (layers st))%nat /\ attached st h /\ isHistorical st h.
Proof.
  unfold layerInvariant, attached. intros Hinv Hh. rewrite Hh in Hinv.
  destruct (map1 st) as [m|]; [|done].
  destruct Hinv as (_ & Hvalid & Hfilter).
  assert (h ∈ filter (isHistorical st) (L.mapLayers m)) as Hin
    by (rewrite Hfilter; set_solver).
  apply list_elem_of_filter in Hin as [Hhist Hin].
  split_and!; [|by eauto|done].
  rewrite Forall_forall in Hvalid. by apply Hvalid.
Qed.

Lemma layerInvariant_update (T : Catalog) city year st :
  layerInvariant st ->
  layerInvariant (final_state st (updateHistoricalLayerIn T city year st)).
Proof.
  intros Hinv.
  destruct (lookupFolder T city year) as [e|v] eqn:Hl.
  { unfold_stmt. by rewrite Hl. }
  destruct (truthy v) eqn:Hv.
  - destruct (to_string v) as [e|name] eqn:Hs.
    { unfold_stmt. rewrite Hl, Hv. cbn. by rewrite Hs. }
    destruct (histLayer st) as [h|] eqn:Hh.
    + rewrite (updateHistoricalLayerIn_rebind T city year v name st h) by done.
      unfold layerInvariant in *. cbn. rewrite Hh in *.
      destruct (map1 st) as [m|]; [|done].
      destruct Hinv as (Hnd & Hvalid & Hfilter).
      split_and!; [done|by rewrite length_alter|].
      rewrite <- Hfilter. apply filter_isHistorical_ext.
      intros h' _. cbn. apply layerOptions_alter_url.
    + destruct (map1 st) as [m|] eqn:Hm.
      * destruct (updateHistoricalLayerIn_create T city year v name st m)
          as (st' & -> & Hh' & Hls & Hm' & _); [done..|].
        unfold layerInvariant in *. cbn. rewrite Hm, Hh in Hinv.
        rewrite Hm', Hh', Hls.
        destruct Hinv as (Hnd & Hvalid & Hfilter).
        assert (length (layers st) ∉ L.mapLayers m) as Hfresh.
        { intros Hin. rewrite Forall_forall in Hvalid.
          apply Hvalid in Hin. lia. }
        rewrite bool_decide_eq_false_2 by done. cbn.
        split_and!.
        -- apply NoDup_app. split_and!; [done| |apply NoDup_singleton].
           by intros x Hx ->%list_elem_of_singleton.
        -- apply Forall_app. rewrite length_app. cbn. split.
           ++ eapply Forall_impl; [done|]. cbn. lia.
           ++ apply Forall_singleton. lia.
        -- rewrite filter_app.
           rewrite (filter_isHistorical_ext st st').
           ++ rewrite Hfilter. rewrite filter_cons_True; [done|].
              unfold isHistorical. rewrite Hls.
              by rewrite list_lookup_middle.
           ++ intros h Hin. rewrite Hls. rewrite lookup_app_l; [done|].
              rewrite Forall_forall in Hvalid. by apply Hvalid.
      * unfold_stmt. rewrite Hl, Hv. cbn. rewrite Hs. cbn. rewrite Hh. cbn.
        rewrite Hm. cbn. unfold layerInvariant. cbn. by rewrite Hm.
  - rewrite (updateHistoricalLayerIn_falsy T city year v) by done.
    destruct (histLayer st) as [h|] eqn:Hh.
    + destruct (map1 st) as [m|] eqn:Hm.
      * destruct (absentBranch_some city year st h m)
          as (st' & -> & Hh' & Hm' & Hls & _); [done..|].
        unfold layerInvariant in *. cbn. rewrite Hm, Hh in Hinv.
        rewrite Hm', Hh', Hls. cbn.
        destruct Hinv as (Hnd & Hvalid & Hfilter).
        split_and!.
        -- by apply NoDup_filter.
        -- apply Forall_forall. intros h' [_ Hin]%list_elem_of_filter.
           rewrite Forall_forall in Hvalid. by apply Hvalid.
        -- rewrite (filter_isHistorical_ext st st')
             by (intros; by rewrite Hls).
           rewrite list_filter_filter.
           rewrite (list_filter_iff _ (fun a => a ≠ h /\ isHistorical st a))
             by tauto.
           rewrite <- (list_filter_filter (fun a => a ≠ h) (isHistorical st)).
           rewrite Hfilter. change (option_list (Some h)) with [h].
           by rewrite filter_cons_False by tauto.
      * unfold layerInvariant in Hinv. by rewrite Hm, Hh in Hinv.
    + rewrite absentBranch_none by done. cbn.
      unfold layerInvariant in *. cbn. by rewrite Hh in *.
Qed.


(** What a call leaves alone, however it completes: everything but the
    store of layers, the layers on the primary map, [histLayer] and the
    trace. *)
Lemma updateHistoricalLayerIn_frame (T : Catalog) city year st :
  let st' := final_state st (updateHistoricalLayerIn T city year st) in
  L.with_layers [] <$> map1 st' = L.with_layers [] <$> map1 st /\
  map2 st' = map2 st /\ syncing st' = syncing st /\
  cursor1 st' = cursor1 st /\ cursor2 st' = cursor2 st /\
  elements st' = elements st /\ documentCursors st' = documentCursors st /\
  baseLayers st' = baseLayers st.
Proof.
  unfold_stmt.
  destruct (lookupFolder T city year) as [e|v]; cbn; [done|].
  destruct (truthy v); cbn.
  - destruct (to_string v) as [e|name]; cbn; [done|].
    destruct (histLayer st) as [h|]; cbn; [done|].
    destruct (map1 st) as [m|] eqn:Hm; cbn; [|by rewrite Hm].
    by case_bool_decide.
  - destruct (histLayer st) as [h|]; cbn; [|done].
    destruct (map1 st) as [m|] eqn:Hm; cbn; [done|by rewrite Hm].
Qed.

Lemma ready_update (T : Catalog) city year st :
  ready st ->
  ready (final_state st (updateHistoricalLayerIn T city year st)).
Proof.
  intros ((m1 & Hm1 & Hl1) & Hm2 & Hs & Hc1 & Hc2).
  destruct (updateHistoricalLayerIn_frame T city year st)
    as (Hf1 & Hf2 & Hfs & Hfc1 & Hfc2 & Hfe & _).
  unfold ready. rewrite Hf2, Hfs, Hfc1, Hfc2, Hfe. split_and!; try done.
  rewrite Hm1 in Hf1.
  destruct (map1 (final_state st _)) as [m1'|]; [|done].
  exists m1'. split; [done|].
  assert (L.with_layers [] m1' = L.with_layers [] m1) as Hf
    by (cbn in Hf1; congruence).
  rewrite <- Hl1. by apply (f_equal L.listeners) in Hf.
Qed.

(** ** View synchronisation *)

(** While the guard is up, [syncView] returns at once. *)
Lemma syncView_guarded fire0 fromMap toMap st :
  syncing st = true ->
  syncView fire0 fromMap toMap st = Normal tt st.
Proof. intros Hs. unfold syncView. unfold_stmt. by rewrite Hs. Qed.

Lemma listenersFor_installed p v m :
  L.listeners m = installed p ->
  listenersFor (L.OnView v) m = [L.SyncView p (L.other p)].
Proof. intros Hl. unfold listenersFor. rewrite Hl. by destruct v. Qed.

Lemma listenersFor_installed_pointer p m :
  L.listeners m = installed p ->
  listenersFor L.OnMouseMove m = [L.UpdateCursors].
Proof. intros Hl. unfold listenersFor. by rewrite Hl. Qed.

(** So an event that reaches a panel while the guard is up changes
    nothing. *)
Lemma fire_guarded n p v st m :
  panel p st = Some m -> L.listeners m = installed p ->
  syncing st = true ->
  fire (S n) p (ViewChanged v) st = Normal tt st.
Proof.
  intros Hm Hl Hs. cbn. unfold_stmt. rewrite Hm.
  cbn. rewrite (listenersFor_installed p) by done. cbn.
  unfold mbind, M_bind. by rewrite syncView_guarded.
Qed.

Lemma panel_set_panel p q m st :
  panel p (set_panel q m st) = if decide (p = q) then Some m else panel p st.
Proof. by destruct p, q, st. Qed.

Lemma ready_panel p st :
  ready st -> exists m, panel p st = Some m /\ L.listeners m = installed p.
Proof. intros (H1 & H2 & _). by destruct p. Qed.

(** An event on panel [p], one level of listeners unfolded. *)
Lemma fire_view_unfold n p v st m m' :
  ready st ->
  panel p st = Some m -> panel (L.other p) st = Some m' ->
  fire (S n) p (ViewChanged v) st =
  (forEach (fun v' => fire n (L.other p) (ViewChanged v'))
     (setView_emits (L.center m', L.zoom m')
        (setView_view (L.mapOptions m') (L.center m', L.zoom m')
           (L.center m, L.zoom m)));;
   emit (GuardSet false);;
   modify (set_syncing false)) (copying p m m' st).
Proof.
  intros Hready Hm Hm'.
  destruct (ready_panel p st Hready) as (m0 & Hm0 & Hl).
  assert (m0 = m) as -> by congruence.
  destruct Hready as (_ & _ & Hs & _).
  change (fire (S n) p (ViewChanged v) st) with
    ((m ← theMap p;
      forEach
        (fun fn =>
           match fn with
           | L.SyncView fromMap toMap =>
               syncView (fun q v => fire n q (ViewChanged v)) fromMap toMap
           | L.UpdateCursors =>
               throw "TypeError: e.originalEvent is undefined"
           end)
        (listenersFor (L.OnView v) m)) st).
  unfold mbind at 1, M_bind at 1, theMap at 1. rewrite Hm.
  rewrite (listenersFor_installed p) by done.
  unfold forEach at 1, syncView, setView.
  unfold mbind, M_bind, gets, emit, modify, theMap, mret, M_ret.
  rewrite Hs. cbn.
  assert (panel p (set_syncing true
    (set_trace (trace st ++ [GuardSet true]) st)) = Some m) as ->
    by (by destruct p).
  assert (panel (L.other p) (set_syncing true
    (set_trace (trace st ++ [GuardSet true]) st)) = Some m') as ->
    by (by destruct p).
  cbn. fold (synced m m').
  assert (set_panel (L.other p) (synced m m')
            (set_trace
               ((trace st ++ [GuardSet true]) ++
                [ViewSet (L.other p) (L.center m) (L.zoom m) (Some false)])
               (set_syncing true
                  (set_trace (trace st ++ [GuardSet true]) st))) =
          copying p m m' st) as ->.
  { unfold copying. destruct p, st; cbn; by rewrite <- ?app_assoc. }
  by destruct (forEach _ _ (copying p m m' st)) as [[] ?|?|].
Qed.

Lemma copying_done p m m' st :
  syncing st = false ->
  set_syncing false
    (set_trace (trace (copying p m m' st) ++ [GuardSet false])
       (copying p m m' st)) =
  copied p m m' st.
Proof.
  intros Hs. unfold copying, copied.
  destruct p, st; cbn in *; subst; by rewrite <- ?app_assoc.
Qed.

(** With fuel for the nested events, the listener of one panel leaves
    exactly [copied]. *)
Lemma fire_view n p v st m m' :
  ready st ->
  panel p st = Some m -> panel (L.other p) st = Some m' ->
  fire (S (S n)) p (ViewChanged v) st = Normal tt (copied p m m' st).
Proof.
  intros Hready Hm Hm'.
  rewrite (fire_view_unfold _ _ _ _ m m') by done.
  destruct (ready_panel (L.other p) st Hready) as (m0' & Hm0' & Hl').
  assert (m0' = m') as -> by congruence.
  destruct Hready as (_ & _ & Hs & _).
  unfold mbind, M_bind. rewrite forEach_skip.
  - unfold emit, modify. by rewrite copying_done.
  - intros v' _.
    apply (fire_guarded _ _ _ _ (synced m m')).
    + unfold copying. by destruct p.
    + done.
    + unfold copying. by destruct p.
Qed.

(** Whatever the fuel, a listener that returns has left [copied]. *)
Lemma fire_view_normal fuel p v st m m' st' :
  ready st ->
  panel p st = Some m -> panel (L.other p) st = Some m' ->
  fire fuel p (ViewChanged v) st = Normal tt st' ->
  st' = copied p m m' st.
Proof.
  intros Hready Hm Hm'.
  destruct fuel as [|[|n]]; [done| |].
  - rewrite (fire_view_unfold _ _ _ _ m m') by done.
    destruct Hready as (_ & _ & Hs & _).
    unfold mbind, M_bind.
    destruct (setView_emits _ _) as [|v' l]; [|done].
    cbn. unfold emit, modify. rewrite copying_done by done. congruence.
  - rewrite (fire_view _ _ _ _ m m') by done. congruence.
Qed.


(** ** Cursor mirroring *)

Lemma updateCursors_run (e : Pointer) st h1 h2 :
  cursor1 st = Some h1 -> cursor2 st = Some h2 ->
  let x := px (number_sub (clientX e) (rectLeft e)) in
  let y := px (number_sub (clientY e) (rectTop e)) in
  updateCursors e st =
  Normal tt
    (set_elements
       (alter (with_top y) h2 (alter (with_left x) h2
          (alter (with_top y) h1 (alter (with_left x) h1 (elements st)))))
       st).
Proof.
  intros H1 H2 x y. unfold updateCursors, setStyle, theCursor.
  unfold mbind, M_bind, modify. cbn. rewrite H1. cbn. rewrite H1. cbn.
  rewrite H2. cbn. rewrite H2. by destruct st.
Qed.

(** After the four assignments each of the two elements holds the pair,
    also when both globals should name one element. *)
Lemma mirrored_lookup (l : list Cursor) h1 h2 x y h :
  (h = h1 \/ h = h2) -> (h < length l)%nat ->
  exists c,
    alter (with_top y) h2 (alter (with_left x) h2
      (alter (with_top y) h1 (alter (with_left x) h1 l))) !! h = Some c /\
    styleLeft c = x /\ styleTop c = y.
Proof.
  intros Hh [c Hc]%lookup_lt_is_Some_2.
  rewrite !list_lookup_alter.
  repeat case_decide; simplify_eq; rewrite Hc; cbn;
    (eexists; split; [reflexivity|]); cbn; try done;
    by destruct Hh.
Qed.

Lemma fire_pointer n p (e : Pointer) st :
  ready st ->
  fire (S n) p (MouseMoved e) st = updateCursors e st.
Proof.
  intros Hready.
  destruct (ready_panel p st Hready) as (m & Hm & Hl).
  cbn. unfold mbind at 1, M_bind at 1, theMap. rewrite Hm.
  rewrite (listenersFor_installed_pointer p) by done.
  cbn. unfold mbind, M_bind. by destruct (updateCursors e st) as [[] ?|?|].
Qed.

(** ** What the invariants depend on *)

Lemma layerInvariant_ext st st' :
  L.mapLayers <$> map1 st' = L.mapLayers <$> map1 st ->
  layers st' = layers st -> histLayer st' = histLayer st ->
  layerInvariant st -> layerInvariant st'.
Proof.
  unfold layerInvariant. intros Hm Hl Hh.
  destruct (map1 st) as [m|], (map1 st') as [m'|]; try done; cbn in Hm.
  - rewrite Hl, Hh. assert (L.mapLayers m' = L.mapLayers m) as -> by congruence.
    intros (? & ? & <-). split_and!; try done.
    apply filter_isHistorical_ext. intros. by rewrite Hl.
  - by rewrite Hh.
Qed.

Lemma ready_ext st st' :
  L.listeners <$> map1 st' = L.listeners <$> map1 st ->
  L.listeners <$> map2 st' = L.listeners <$> map2 st ->
  syncing st' = syncing st ->
  cursor1 st' = cursor1 st -> cursor2 st' = cursor2 st ->
  length (elements st') = length (elements st) ->
  ready st -> ready st'.
Proof.
  unfold ready. intros H1 H2 -> -> -> ->.
  intros ((m1 & Hm1 & Hl1) & (m2 & Hm2 & Hl2) & ? & ? & ?).
  rewrite Hm1 in H1. rewrite Hm2 in H2.
  destruct (map1 st') as [m1'|], (map2 st') as [m2'|]; try done.
  cbn in *. split_and!; try done.
  - exists m1'. split; [done|]. congruence.
  - exists m2'. split; [done|]. congruence.
Qed.

Lemma ready_copied p m m' st :
  ready st -> panel p st = Some m -> panel (L.other p) st = Some m' ->
  ready (copied p m m' st).
Proof.
  intros Hready Hm Hm'. eapply ready_ext; [..|exact Hready];
    unfold copied; destruct p; cbn in *; rewrite ?Hm, ?Hm'; done.
Qed.

Lemma layerInvariant_copied p m m' st :
  layerInvariant st -> panel (L.other p) st = Some m' ->
  layerInvariant (copied p m m' st).
Proof.
  intros Hinv Hm'. eapply layerInvariant_ext; [..|exact Hinv];
    unfold copied; destruct p; cbn in *; rewrite ?Hm'; done.
Qed.

Lemma ready_viewed p c z m st :
  ready st -> panel p st = Some m ->
  ready (set_panel p (L.with_view c z m) st).
Proof.
  intros Hready Hm. eapply ready_ext; [..|exact Hready];
    destruct p; cbn in *; rewrite ?Hm; done.
Qed.

Lemma layerInvariant_viewed p c z m st :
  layerInvariant st -> panel p st = Some m ->
  layerInvariant (set_panel p (L.with_view c z m) st).
Proof.
  intros Hinv Hm. eapply layerInvariant_ext; [..|exact Hinv];
    destruct p; cbn in *; rewrite ?Hm; done.
Qed.

(** A gesture on one panel, when it returns, has left [copied]. *)
Lemma gesture_normal fuel p c z v st st' m m' :
  ready st -> panel p st = Some m -> panel (L.other p) st = Some m' ->
  gesture fuel p c z v st = Normal tt st' ->
  st' = copied p (L.with_view c z m) m' (set_panel p (L.with_view c z m) st).
Proof.
  intros Hready Hm Hm'. unfold gesture.
  unfold mbind, M_bind, theMap, modify. rewrite Hm.
  apply fire_view_normal.
  - by apply ready_viewed.
  - by destruct p.
  - by destruct p.
Qed.


(** ** initMaps *)

(** The city keys. *)
Lemma centerCoords_cities city :
  is_Some (centerCoords !! city) <->
  city ∈ ["munich"; "vienna"; "enschede"; "dresden"].
Proof.
  unfold centerCoords. split.
  - intros [c Hc]. apply elem_of_list_to_map_2 in Hc.
    repeat (apply elem_of_cons in Hc as [[= -> _]|Hc]; [set_solver|]).
    by apply elem_of_nil in Hc.
  - intros Hin.
    repeat (apply elem_of_cons in Hin as [->|Hin];
            [eexists; vm_compute; reflexivity|]).
    by apply elem_of_nil in Hin.
Qed.

Lemma initMaps_unfold city la lo year :
  centerCoords !! city = Some (la, lo) ->
  initMaps city year pageLoaded =
  (updateHistoricalLayer city year;; wiring) (built (L.latLng la lo)).
Proof.
  intros Hc. unfold initMaps, centerOf. rewrite Hc. reflexivity.
Qed.

Lemma initMaps_unknown_city city year :
  centerCoords !! city = None ->
  exists e st, initMaps city year pageLoaded = Thrown e st.
Proof.
  intros Hc. unfold initMaps, centerOf. rewrite Hc. by eexists _, _.
Qed.

Lemma wiring_run st m1 m2 :
  map1 st = Some m1 -> map2 st = Some m2 ->
  L.listeners m1 = [] -> L.listeners m2 = [] ->
  exists st',
    wiring st = Normal tt st' /\
    map1 st' = Some (L.with_listeners (installed L.Map1) m1) /\
    map2 st' = Some (L.with_listeners (installed L.Map2) m2) /\
    syncing st' = false /\
    cursor1 st' = Some (length (elements st)) /\
    cursor2 st' = Some (S (length (elements st))) /\
    length (elements st') = S (S (length (elements st))) /\
    layers st' = layers st /\ histLayer st' = histLayer st /\
    trace st' = trace st.
Proof.
  intros H1 H2 Hl1 Hl2.
  destruct st as [ls els dcs mp1 mp2 c1 c2 hl bl sy tr].
  destruct m1, m2. cbn in *. subst.
  eexists. split; [lazy -[length]; reflexivity|]. cbn.
  rewrite !length_app. cbn.
  split_and!; try done; f_equal; lia.
Qed.


Lemma layerInvariant_built c : layerInvariant (built c).
Proof.
  unfold layerInvariant. cbn. split_and!.
  - apply NoDup_singleton.
  - apply Forall_singleton. cbn. lia.
  - reflexivity.
Qed.

Lemma initMaps_outcome city la lo year :
  centerCoords !! city = Some (la, lo) ->
  let c := L.latLng la lo in
  let st1 := final_state (built c) (updateHistoricalLayer city year (built c)) in
  (exists e, updateHistoricalLayer city year (built c) = Thrown e st1 /\
             initMaps city year pageLoaded = Thrown e st1) \/
  (exists st m1 m2,
     initMaps city year pageLoaded = Normal tt st /\
     map1 st1 = Some m1 /\ map2 st1 = Some m2 /\
     map1 st = Some (L.with_listeners (installed L.Map1) m1) /\
     map2 st = Some (L.with_listeners (installed L.Map2) m2) /\
     syncing st = false /\
     cursor1 st = Some 0%nat /\ cursor2 st = Some 1%nat /\
     length (elements st) = 2%nat /\
     layers st = layers st1 /\ histLayer st = histLayer st1 /\
     trace st = trace st1).
Proof.
  intros Hc c st1. rewrite (initMaps_unfold city la lo) by done.
  fold c. unfold mbind, M_bind.
  pose proof (updateHistoricalLayerIn_frame TILE_FOLDER_MAP city year (built c))
    as (Hf1 & Hf2 & _ & _ & _ & Hfe & _).
  pose proof (updateHistoricalLayerIn_finishes TILE_FOLDER_MAP city year
    (built c)) as Hfin.
  fold (updateHistoricalLayer city year) in Hf1, Hf2, Hfe, Hfin.
  subst st1.
  destruct (updateHistoricalLayer city year (built c)) as [[] st1|e st1|];
    [|left; by exists e|done].
  right. cbn in *.
  destruct (map1 st1) as [m1|] eqn:Hm1; [|done].
  assert (L.listeners m1 = []) as Hl1.
  { assert (L.with_layers [] m1 = L.with_layers [] {|
      L.container := "map1"; L.mapOptions := mapOptions; L.center := c;
      L.zoom := 13; L.mapLayers := [0%nat]; L.layerControls := [];
      L.listeners := [] |}) as Hf by (cbn in Hf1; congruence).
    by apply (f_equal L.listeners) in Hf. }
  destruct (wiring_run st1 m1 _ Hm1 Hf2 Hl1 eq_refl)
    as (st & Hw & ? & ? & ? & ? & ? & ? & ? & ? & ?).
  exists st, m1. eexists. rewrite Hfe in *. cbn in *.
  split_and!; done.
Qed.

Lemma initMaps_normal city year st :
  initMaps city year pageLoaded = Normal tt st ->
  ready st /\ layerInvariant st.
Proof.
  intros Hinit.
  destruct (centerCoords !! city) as [[la lo]|] eqn:Hc.
  2: { destruct (initMaps_unknown_city city year Hc) as (e & st' & He).
       congruence. }
  destruct (initMaps_outcome city la lo year Hc)
    as [(e & _ & He)|(st' & m1 & m2 & Hst & Hm1 & Hm2 & Hm1' & Hm2' & Hs
                       & Hc1 & Hc2 & Hlen & Hls & Hh & _)]; [congruence|].
  assert (st' = st) as -> by congruence.
  split.
  - unfold ready. rewrite Hm1', Hm2', Hs, Hc1, Hc2, Hlen.
    split_and!; eauto.
  - eapply (layerInvariant_ext
      (final_state _ (updateHistoricalLayer city year (built (L.latLng la lo))))).
    + rewrite Hm1', Hm1. done.
    + done.
    + done.
    + apply layerInvariant_update, layerInvariant_built.
Qed.

(** ** Reachable states *)

Lemma step_invariants st st' :
  step st st' -> ready st /\ layerInvariant st ->
  ready st' /\ layerInvariant st'.
Proof.
  intros Hstep [Hready Hinv].
  destruct Hstep as [city year st c <-|fuel p ctr z v st st' Hg
                    |fuel p e st st' Hf].
  - split; [by apply ready_update|by apply layerInvariant_update].
  - destruct (ready_panel p st Hready) as (m & Hm & _).
    destruct (ready_panel (L.other p) st Hready) as (m' & Hm' & _).
    rewrite (gesture_normal _ _ _ _ _ _ _ m m' Hready Hm Hm' Hg).
    split.
    + apply ready_copied; [by apply ready_viewed|by destruct p..].
    + apply layerInvariant_copied; [by apply layerInvariant_viewed|].
      by destruct p.
  - destruct fuel as [|n]; [done|].
    rewrite fire_pointer in Hf by done.
    pose proof Hready as (_ & _ & _ & (h1 & Hh1 & _) & (h2 & Hh2 & _)).
    rewrite (updateCursors_run e st h1 h2) in Hf by done.
    injection Hf as <-. split.
    + eapply ready_ext; [..|exact Hready]; try done.
      cbn. by rewrite !length_alter.
    + by eapply layerInvariant_ext; [..|exact Hinv].
Qed.

Lemma reachable_invariants st :
  reachable st -> ready st /\ layerInvariant st.
Proof.
  induction 1 as [city year st Hinit|st st' _ IH Hstep].
  - by eapply initMaps_normal.
  - by eapply step_invariants.
Qed.


(** * The claims *)

(** C1. A move or zoom event on one panel [p] whose view is (C, Z): the
    sync handler asks the other panel for exactly (C, Z), by one
    [setView] with animation suppressed ([animate: false]). The view the
    other panel shows afterwards is the one the widget makes of that
    request under the options of that panel, [maxBounds] among them; it
    is (C, Z) exactly whenever the widget applies the request as asked.
    Whatever events that [setView] makes the other panel emit, they are
    fired while the guard is set and their listener does nothing, so
    nothing is synced back: the originating panel is as it was and the
    trace holds a single [setView], on the other panel. The guard is set
    before the copy and cleared right after it. *)
Theorem syncView_requests_view fuel p v st m m0 C Z :
  ready st -> (2 <= fuel)%nat ->
  panel p st = Some m -> L.center m = C -> L.zoom m = Z ->
  panel (L.other p) st = Some m0 ->
  let shown :=
    setView_view (L.mapOptions m0) (L.center m0, L.zoom m0) (C, Z) in
  exists st',
    fire fuel p (ViewChanged v) st = Normal tt st' /\
    panel (L.other p) st' = Some (L.with_view shown.1 shown.2 m0) /\
    (shown = (C, Z) -> panel (L.other p) st' = Some (L.with_view C Z m0)) /\
    panel p st' = Some m /\
    syncing st' = false /\
    trace st' =
      (trace st ++
       [GuardSet true; ViewSet (L.other p) C Z (Some false); GuardSet false])%list /\
    let during := copying p m m0 st in
    syncing during = true /\
    forall v', fire (fuel - 1) (L.other p) (ViewChanged v') during
               = Normal tt during.
Proof.
  intros Hready Hfuel Hm <- <- Hm0 shown.
  destruct fuel as [|[|n]]; [lia..|].
  exists (copied p m m0 st).
  split; [by apply fire_view|].
  destruct (ready_panel (L.other p) st Hready) as (m0' & Hm0' & Hl0).
  assert (m0' = m0) as -> by congruence.
  pose proof Hready as (_ & _ & Hs & _).
  assert (panel (L.other p) (copied p m m0 st)
          = Some (L.with_view shown.1 shown.2 m0)) as Hshown
    by (unfold copied; by destruct p).
  split; [exact Hshown|].
  split; [intros Heq; by rewrite Hshown, Heq|].
  unfold copied, copying. cbn.
  split_and!; try (by destruct p); try done.
  intros v'. replace (S (S n) - 1)%nat with (S n) by lia.
  apply (fire_guarded _ _ _ _ (synced m m0)).
  - by destruct p.
  - done.
  - by destruct p.
Qed.

(** C7. A pointer-move event on either panel: the handler takes the
    pointer's offset from the top-left corner of that panel's container,
    x = clientX - left and y = clientY - top, and writes that one pair,
    as [x + 'px'] and [y + 'px'], to both cursor indicators, which
    therefore hold identical positions afterwards. *)
Theorem updateCursors_mirrors fuel p (e : Pointer) st :
  ready st -> (1 <= fuel)%nat ->
  let x := number_sub (clientX e) (rectLeft e) in
  let y := number_sub (clientY e) (rectTop e) in
  exists st' h1 h2 c1 c2,
    fire fuel p (MouseMoved e) st = Normal tt st' /\
    cursor1 st' = Some h1 /\ cursor2 st' = Some h2 /\
    elements st' !! h1 = Some c1 /\ elements st' !! h2 = Some c2 /\
    styleLeft c1 = number_to_string x ++ "px" /\
    styleTop c1 = number_to_string y ++ "px" /\
    styleLeft c2 = styleLeft c1 /\ styleTop c2 = styleTop c1.
Proof.
  intros Hready Hfuel x y.
  destruct fuel as [|n]; [lia|].
  pose proof Hready as (_ & _ & _ & (h1 & Hh1 & Hlt1) & (h2 & Hh2 & Hlt2)).
  rewrite fire_pointer by done.
  rewrite (updateCursors_run e st h1 h2) by done.
  destruct (mirrored_lookup (elements st) h1 h2 (px x) (px y) h1)
    as (c1 & Hc1 & Hx1 & Hy1); [by left|done|].
  destruct (mirrored_lookup (elements st) h1 h2 (px x) (px y) h2)
    as (c2 & Hc2 & Hx2 & Hy2); [by right|done|].
  eexists _, h1, h2, c1, c2. split; [reflexivity|]. cbn.
  split_and!; try done; congruence.
Qed.

(** C8. For every city key of the coordinate table, [initMaps] builds
    both map widgets centered on that city's coordinate of the table, at
    zoom level 13, and both constrained to the bound box with south-west
    corner (35, -10) and north-east corner (71, 40). *)
Theorem initMaps_places_both_maps city la lo year :
  centerCoords !! city = Some (la, lo) ->
  let st := final_state pageLoaded (initMaps city year pageLoaded) in
  initMaps city year pageLoaded ≠ Unfinished /\
  exists m1 m2,
    map1 st = Some m1 /\ map2 st = Some m2 /\
    L.center m1 = L.latLng la lo /\ L.zoom m1 = 13 /\
    L.center m2 = L.latLng la lo /\ L.zoom m2 = 13 /\
    L.maxBounds (L.mapOptions m1)
      = L.latLngBounds (L.latLng 35 (-10)) (L.latLng 71 40) /\
    L.maxBounds (L.mapOptions m2)
      = L.latLngBounds (L.latLng 35 (-10)) (L.latLng 71 40).
Proof.
  intros Hc st. subst st.
  pose proof (updateHistoricalLayerIn_frame TILE_FOLDER_MAP city year
    (built (L.latLng la lo))) as (Hf1 & Hf2 & _).
  fold (updateHistoricalLayer city year) in Hf1, Hf2.
  destruct (initMaps_outcome city la lo year Hc)
    as [(e & Hu & ->)|(st' & m1 & m2 & -> & Hm1 & Hm2 & Hm1' & Hm2' & _)];
    (split; [done|]); cbn.
  - rewrite Hu in Hf1, Hf2. cbn in Hf1, Hf2. rewrite Hf2.
    destruct (map1 _) as [m1|]; [|done].
    assert (L.with_layers [] m1 = L.with_layers [] {|
      L.container := "map1"; L.mapOptions := mapOptions;
      L.center := L.latLng la lo;
      L.zoom := 13; L.mapLayers := [0%nat]; L.layerControls := [];
      L.listeners := [] |}) as Hf by (cbn in Hf1; congruence).
    eexists m1, _. split_and!; try done.
    + by apply (f_equal L.center) in Hf.
    + by apply (f_equal L.zoom) in Hf.
    + by apply (f_equal L.mapOptions) in Hf; cbn in Hf; rewrite Hf.
  - rewrite Hm1 in Hf1. rewrite Hm2 in Hf2. rewrite Hm1', Hm2'.
    assert (L.with_layers [] m1 = L.with_layers [] {|
      L.container := "map1"; L.mapOptions := mapOptions;
      L.center := L.latLng la lo;
      L.zoom := 13; L.mapLayers := [0%nat]; L.layerControls := [];
      L.listeners := [] |}) as Hf by (cbn in Hf1; congruence).
    injection Hf2 as ->.
    eexists _, _. split_and!; try done; cbn.
    + by apply (f_equal L.center) in Hf.
    + by apply (f_equal L.zoom) in Hf.
    + by apply (f_equal L.mapOptions) in Hf; cbn in Hf; rewrite Hf.
Qed.


Lemma Unavailable_falsy (T : Catalog) city year :
  Unavailable T city year ->
  exists v, lookupFolder T city year = inr v /\ truthy v = false.
Proof.
  intros [years HT Hy|years HT Hy|years HT Hy Hp|HT Hp].
  - exists VNull. by rewrite (lookupFolder_own T city year years None).
  - exists (VString "").
    by rewrite (lookupFolder_own T city year years (Some "")).
  - exists (object_prototype_get year). by rewrite (lookupFolder_no_year T city year years).
  - exists VNull. by rewrite lookupFolder_no_city.
Qed.

(** The Absent branch: a warning, and the layer, if there was one, is
    taken off the primary map and let go. *)
Lemma absentBranch_outcome city year st :
  layerInvariant st ->
  exists st',
    absentBranch city year st = Normal tt st' /\
    absent st' /\
    layers st' = layers st /\
    match histLayer st with
    | Some h =>
        ~ attached st' h /\
        trace st' =
          (trace st ++ [Warned (warning city year); LayerRemoved L.Map1 h])%list
    | None => st' = set_trace (trace st ++ [Warned (warning city year)]) st
    end.
Proof.
  intros Hinv. destruct (histLayer st) as [h|] eqn:Hh.
  - destruct (layerInvariant_histLayer st h Hinv Hh) as (_ & (m & Hm & _) & _).
    destruct (absentBranch_some city year st h m)
      as (st' & Hrun & Hh' & Hm' & Hls & Htr & _); [done..|].
    exists st'. split_and!; try done.
    intros (m' & Hm'' & Hin). rewrite Hm' in Hm''. injection Hm'' as <-.
    cbn in Hin. apply list_elem_of_filter in Hin. tauto.
  - rewrite absentBranch_none by done. eexists. split_and!; try done.
Qed.

(** C10. Any falsy folder value takes the one Absent branch, whichever
    falsy value it is and wherever it comes from. An entry that is
    [null] and an entry whose folder is the empty string always read as
    a falsy folder; a year the city's catalog has no entry for reads as
    what [Object.prototype] has under that name, and a city without a
    catalog reads as [null] when [Object.prototype] has nothing truthy
    under its name: the same Absent branch whenever the value read is
    falsy. In particular an entry whose
    folder is the empty string leaves the layer Absent, with the
    warning, and not bound to [tiles//{z}/{x}/{y}.png]. *)
Theorem falsy_folder_takes_absent_branch (T : Catalog) city year st :
  layerInvariant st ->
  (forall years,
     T !! city = Some years ->
     (years !! year = Some None ->
      lookupFolder T city year = inr VNull) /\
     (years !! year = Some (Some "") ->
      lookupFolder T city year = inr (VString "")) /\
     (years !! year = None ->
      lookupFolder T city year = inr (object_prototype_get year))) /\
  (T !! city = None -> truthy (object_prototype_get city) = false ->
   lookupFolder T city year = inr VNull) /\
  truthy VNull = false /\ truthy (VString "") = false /\
  truthy VUndefined = false /\
  forall v,
    lookupFolder T city year = inr v -> truthy v = false ->
    updateHistoricalLayerIn T city year st = absentBranch city year st /\
    exists st',
      absentBranch city year st = Normal tt st' /\
      absent st' /\
      ~ present st' "tiles//{z}/{x}/{y}.png" /\
      Warned ("Tiles for " ++ city ++ " year " ++ year ++
              " are not yet available. Showing background only.")
        ∈ trace st'.
Proof.
  intros Hinv. split.
  { intros years HT. split_and!; intros Hy.
    - by rewrite (lookupFolder_own T city year years None).
    - by rewrite (lookupFolder_own T city year years (Some "")).
    - by rewrite (lookupFolder_no_year T city year years). }
  split; [by apply lookupFolder_no_city|].
  split; [done|]. split; [done|]. split; [done|].
  intros v Hl Hv.
  split; [by eapply updateHistoricalLayerIn_falsy|].
  destruct (absentBranch_outcome city year st Hinv)
    as (st' & Hrun & Habs & _ & Htr).
  exists st'. split_and!; try done.
  - intros (h & l & Hh & _). unfold absent in Habs. congruence.
  - fold (warning city year).
    destruct (histLayer st); [destruct Htr as [_ ->]|subst st'; cbn];
      set_solver.
Qed.

(** C3. A (city, year) whose entry in [TILE_FOLDER_MAP] is a folder:
    the historical layer ends up Present, bound to exactly
    [tiles/<folder>/{z}/{x}/{y}.png] and on the primary map. When it was
    Absent, that is a new tile layer, attached to the primary map, with
    [noWrap: true], [minZoom: 9] and [maxZoom: 19]. *)
Theorem updateHistoricalLayer_binds_url city year years folder st :
  TILE_FOLDER_MAP !! city = Some years ->
  years !! year = Some (Some folder) ->
  layerInvariant st -> is_Some (map1 st) ->
  exists st',
    updateHistoricalLayer city year st = Normal tt st' /\
    present st' ("tiles/" ++ folder ++ "/{z}/{x}/{y}.png") /\
    (absent st ->
     exists h l,
       histLayer st' = Some h /\
       layers st !! h = None /\ layers st' !! h = Some l /\
       L.url l = "tiles/" ++ folder ++ "/{z}/{x}/{y}.png" /\
       L.noWrap (L.layerOptions l) = Some true /\
       L.minZoom (L.layerOptions l) = 9 /\
       L.maxZoom (L.layerOptions l) = 19 /\
       attached st' h).
Proof.
  intros HT Hy Hinv [m Hm].
  pose proof (TILE_FOLDER_MAP_folders city year years folder HT Hy) as Hne.
  pose proof (lookupFolder_own TILE_FOLDER_MAP city year years _ HT Hy) as Hl.
  assert (truthy (VString folder) = true) as Hv.
  { apply (folderValue_truthy (Some folder)). eauto. }
  unfold updateHistoricalLayer.
  destruct (histLayer st) as [h|] eqn:Hh.
  - destruct (layerInvariant_histLayer st h Hinv Hh)
      as ([l Hlk]%lookup_lt_is_Some_2 & (m' & Hm' & Hin) & _).
    rewrite (updateHistoricalLayerIn_rebind _ city year _ folder st h)
      by done.
    eexists. split; [reflexivity|]. split.
    + exists h, (L.with_url (tileUrlOf folder) l). cbn.
      split_and!; try done.
      * rewrite list_lookup_alter, decide_True by done. by rewrite Hlk.
      * by exists m'.
    + unfold absent. congruence.
  - destruct (updateHistoricalLayerIn_create TILE_FOLDER_MAP city year _
      folder st m Hl Hv eq_refl Hh Hm)
      as (st' & Hrun & Hh' & Hls & Hm' & _).
    assert (layers st' !! length (layers st) =
            Some {| L.url := tileUrlOf folder;
                    L.layerOptions := historicalOptions |}) as Hnew
      by (rewrite Hls; apply list_lookup_middle; done).
    assert (attached st' (length (layers st))) as Hatt.
    { eexists. split; [exact Hm'|]. case_bool_decide; [done|].
      cbn. set_solver. }
    exists st'. split; [done|]. split.
    + by eexists _, _.
    + intros _. eexists _, _. split_and!; try done.
      by apply lookup_ge_None_2.
Qed.

(** C4. The layer is Present, with folder F1, and the (city, year) asked
    for has folder F2 in the catalog: the URL template of the existing
    layer object is set in place, to [tiles/F2/{z}/{x}/{y}.png]. The
    handle is the same, the object behind it has the new URL and the
    options it had, every other layer object is untouched, the store
    holds as many layers as before, both maps are as they were (the
    layer is neither detached nor attached again), and the only call
    into the widget is [setUrl], with that URL. *)
Theorem updateHistoricalLayer_rebinds_in_place city year years F1 F2 st h l :
  TILE_FOLDER_MAP !! city = Some years ->
  years !! year = Some (Some F2) ->
  histLayer st = Some h -> layers st !! h = Some l ->
  L.url l = tileUrlOf F1 ->
  exists st',
    updateHistoricalLayer city year st = Normal tt st' /\
    histLayer st' = Some h /\
    layers st' !! h =
      Some {| L.url := "tiles/" ++ F2 ++ "/{z}/{x}/{y}.png";
              L.layerOptions := L.layerOptions l |} /\
    (forall i, i ≠ h -> layers st' !! i = layers st !! i) /\
    layers st' = <[h := L.with_url (tileUrlOf F2) l]> (layers st) /\
    length (layers st') = length (layers st) /\
    map1 st' = map1 st /\ map2 st' = map2 st /\
    trace st' =
      (trace st ++ [UrlSet h ("tiles/" ++ F2 ++ "/{z}/{x}/{y}.png")])%list.
Proof.
  intros HT Hy Hh Hlk _.
  pose proof (TILE_FOLDER_MAP_folders city year years F2 HT Hy) as Hne.
  pose proof (lookupFolder_own TILE_FOLDER_MAP city year years _ HT Hy) as Hl.
  assert (truthy (VString F2) = true) as Hv.
  { apply (folderValue_truthy (Some F2)). eauto. }
  unfold updateHistoricalLayer.
  rewrite (updateHistoricalLayerIn_rebind _ city year _ F2 st h) by done.
  eexists. split; [reflexivity|]. cbn.
  split_and!; try done.
  - rewrite list_lookup_alter, decide_True by done. by rewrite Hlk.
  - intros i Hi. by rewrite list_lookup_alter_ne.
  - apply list_eq. intros i.
    destruct (decide (h = i)) as [<-|Hne'].
    + rewrite list_lookup_alter, decide_True by done.
      rewrite list_lookup_insert_eq by (by eapply lookup_lt_Some).
      by rewrite Hlk.
    + rewrite list_lookup_alter_ne by done.
      by rewrite list_lookup_insert_ne.
  - by rewrite length_alter.
Qed.

(** Calling twice, over any catalog. *)
Lemma updateHistoricalLayerIn_idempotent (T : Catalog) city year st :
  layerInvariant st -> is_Some (map1 st) ->
  let once := final_state st (updateHistoricalLayerIn T city year st) in
  let twice :=
    final_state once (updateHistoricalLayerIn T city year once) in
  histLayer twice = histLayer once /\ layers twice = layers once /\
  map1 twice = map1 once.
Proof.
  intros Hinv [m Hm] once twice. subst twice once.
  destruct (lookupFolder T city year) as [e|v] eqn:Hl.
  { unfold_stmt. by rewrite !Hl. }
  destruct (truthy v) eqn:Hv.
  - destruct (to_string v) as [e|name] eqn:Hs.
    { unfold_stmt. rewrite !Hl, !Hv. cbn. by rewrite !Hs. }
    destruct (histLayer st) as [h|] eqn:Hh.
    + rewrite (updateHistoricalLayerIn_rebind T city year v name st h) by done.
      cbn.
      rewrite (updateHistoricalLayerIn_rebind T city year v name _ h) by done.
      cbn. split_and!; try done.
      rewrite list_alter_alter_eq. by apply list_alter_ext.
    + destruct (updateHistoricalLayerIn_create T city year v name st m)
        as (st' & -> & Hh' & Hls & Hm' & _); [done..|].
      cbn.
      rewrite (updateHistoricalLayerIn_rebind T city year v name st'
                 (length (layers st))) by done.
      cbn. split_and!; try done.
      rewrite Hls.
      replace (length (layers st)) with (length (layers st) + 0)%nat at 1
        by lia.
      by rewrite alter_app_r.
  - rewrite (updateHistoricalLayerIn_falsy T city year v) by done.
    destruct (absentBranch_outcome city year st Hinv)
      as (st' & -> & Habs & _).
    cbn. rewrite (updateHistoricalLayerIn_falsy T city year v) by done.
    by rewrite absentBranch_none.
Qed.

(** C5. At most one historical layer exists at any time of a page
    session: [histLayer] is [null] and the primary map carries no
    historical layer, or it points to the one historical layer the
    primary map carries. Every call of [updateHistoricalLayer], with any
    city and year, keeps it so, however the call completes. *)
Theorem one_historical_layer city year st :
  reachable st ->
  layerInvariant st /\
  layerInvariant (final_state st (updateHistoricalLayer city year st)).
Proof.
  intros [_ Hinv]%reachable_invariants.
  split; [done|]. by apply layerInvariant_update.
Qed.

(** C9. Calling [updateHistoricalLayer] twice in a row with the same
    city and year leaves the historical layer as one call does: the same
    handle or none, the same layer objects with the same URL templates,
    the same layers on the primary map. *)
Theorem updateHistoricalLayer_idempotent city year st :
  reachable st ->
  let once := final_state st (updateHistoricalLayer city year st) in
  let twice := final_state once (updateHistoricalLayer city year once) in
  histLayer twice = histLayer once /\ layers twice = layers once /\
  map1 twice = map1 once /\
  (forall u, present twice u <-> present once u) /\
  (absent twice <-> absent once).
Proof.
  intros [Hready Hinv]%reachable_invariants.
  destruct Hready as ((m & Hm & _) & _).
  destruct (updateHistoricalLayerIn_idempotent TILE_FOLDER_MAP city year st)
    as (Hh & Hls & Hm1); [done|by eexists|].
  cbn. unfold updateHistoricalLayer.
  split_and!; try done.
  - intros u. unfold present, attached. by rewrite Hh, Hls, Hm1.
  - unfold absent. by rewrite Hh.
Qed.


(** ** The city resolver *)

Lemma split_nonempty sep s : Str.split sep s ≠ [].
Proof.
  destruct s as [|c s]; cbn; [done|].
  case_decide; [done|]. by destruct (Str.split sep s).
Qed.

Lemma split_no_sep sep s : Str.mem sep s = false -> Str.split sep s = [s].
Proof.
  induction s as [|c s IH]; cbn; [done|].
  intros [Hc Hs]%orb_false_iff. apply bool_decide_eq_false in Hc.
  rewrite decide_False by done. by rewrite IH.
Qed.

Lemma split_last_segment dir name :
  Str.mem "/" name = false ->
  exists seg rest,
    Str.split "/" (dir ++ "/" ++ name) = seg :: (rest ++ [name])%list.
Proof.
  intros Hname. induction dir as [|c dir (seg & rest & IH)].
  - exists "", []. change ("" ++ "/" ++ name) with (String "/" name).
    cbn [Str.split]. rewrite decide_True by done. by rewrite split_no_sep.
  - change (String c dir ++ "/" ++ name) with (String c (dir ++ "/" ++ name)).
    cbn [Str.split]. rewrite IH. case_decide.
    + by exists "", (seg :: rest).
    + by exists (String c seg), rest.
Qed.

Lemma pop_split dir name :
  Str.mem "/" name = false ->
  Str.pop (Str.split "/" (dir ++ "/" ++ name)) = Some name.
Proof.
  intros (seg & rest & ->)%(split_last_segment dir).
  unfold Str.pop. by rewrite app_comm_cons, last_snoc.
Qed.

Lemma prefix_cons a s1 b s2 :
  String.prefix (String a s1) (String b s2) =
  if ascii_dec a b then String.prefix s1 s2 else false.
Proof. done. Qed.

(** [.html] does not overlap itself: appended to a string it does not
    begin, it does not begin the result either. *)
Lemma prefix_html_append s :
  s ≠ "" -> String.prefix ".html" s = false ->
  String.prefix ".html" (s ++ ".html") = false.
Proof.
  intros Hs Hp. destruct s as [|c s]; [done|]. clear Hs.
  do 5 (change (String c s ++ ".html") with (String c (s ++ ".html"));
        rewrite prefix_cons in Hp |- *;
        destruct (ascii_dec _ c) as [<-|]; [|done];
        destruct s as [|c s]; [done|]).
  done.
Qed.

Lemma replace_cons pat rep c s :
  Str.replace pat rep (String c s) =
  if String.prefix pat (String c s)
  then rep ++ Str.drop (String.length pat) (String c s)
  else String c (Str.replace pat rep s).
Proof. done. Qed.

Lemma occurs_cons pat c s :
  Str.occurs pat (String c s) =
  String.prefix pat (String c s) || Str.occurs pat s.
Proof. done. Qed.

Lemma replace_html_suffix name :
  Str.occurs ".html" name = false ->
  Str.replace ".html" "" (name ++ ".html") = name.
Proof.
  induction name as [|c name IH]; [done|].
  rewrite occurs_cons. intros [Hp Ho]%orb_false_iff.
  pose proof (prefix_html_append (String c name)) as Hq.
  change (String c name ++ ".html") with (String c (name ++ ".html")) in *.
  rewrite replace_cons, Hq by done. by rewrite IH.
Qed.

Lemma replace_html_none name :
  Str.occurs ".html" name = false ->
  Str.replace ".html" "" name = name.
Proof.
  induction name as [|c name IH]; [done|].
  rewrite occurs_cons. intros [Hp Ho]%orb_false_iff.
  rewrite replace_cons, Hp. by rewrite IH.
Qed.

Lemma mem_append c s t : Str.mem c (s ++ t) = Str.mem c s || Str.mem c t.
Proof.
  induction s as [|c' s IH]; [done|].
  change (String c' s ++ t) with (String c' (s ++ t)). cbn [Str.mem].
  by rewrite IH, orb_assoc.
Qed.

(** The resolver never throws: [split] yields at least one segment. *)
Lemma getCurrentCity_total pathname :
  exists name,
    pageName pathname = Some name /\
    getCurrentCity pathname = Some (resolve name).
Proof.
  unfold getCurrentCity, pageName, Str.pop.
  destruct (last (Str.split "/" pathname)) as [segment|] eqn:Hlast.
  - by eexists.
  - apply last_None in Hlast. by apply split_nonempty in Hlast.
Qed.

(** Path and extension are stripped. *)
Lemma pageName_html dir name :
  Str.mem "/" name = false -> Str.occurs ".html" name = false ->
  pageName (dir ++ "/" ++ name ++ ".html") = Some name.
Proof.
  intros Hslash Hhtml. unfold pageName.
  rewrite pop_split by (by rewrite mem_append, Hslash).
  cbn. by rewrite replace_html_suffix.
Qed.

Lemma pageName_bare dir name :
  Str.mem "/" name = false -> Str.occurs ".html" name = false ->
  pageName (dir ++ "/" ++ name) = Some name.
Proof.
  intros Hslash Hhtml. unfold pageName. rewrite pop_split by done.
  cbn. by rewrite replace_html_none.
Qed.

Lemma getCurrentCity_page dir name :
  Str.mem "/" name = false -> Str.occurs ".html" name = false ->
  getCurrentCity (dir ++ "/" ++ name ++ ".html") = Some (resolve name) /\
  getCurrentCity (dir ++ "/" ++ name) = Some (resolve name).
Proof.
  intros Hslash Hhtml. split.
  - destruct (getCurrentCity_total (dir ++ "/" ++ name ++ ".html"))
      as (n & Hn & ->).
    rewrite pageName_html in Hn by done. congruence.
  - destruct (getCurrentCity_total (dir ++ "/" ++ name)) as (n & Hn & ->).
    rewrite pageName_bare in Hn by done. congruence.
Qed.

(** The names of the table. *)
Lemma resolve_table name city :
  cityMap !! name = Some city -> resolve name = VString city.
Proof.
  intros Hn. unfold resolve, get. rewrite Hn.
  unfold cityMap in Hn. apply elem_of_list_to_map_2 in Hn.
  repeat (apply elem_of_cons in Hn as [[= -> ->]|Hn]; [done|]).
  by apply elem_of_nil in Hn.
Qed.

(** Any other name: the read falls through to [Object.prototype], and
    the default city is taken only when nothing truthy is found there. *)
Lemma resolve_other name :
  cityMap !! name = None ->
  resolve name =
  if truthy (object_prototype_get name) then object_prototype_get name
  else VString "munich".
Proof. intros Hn. unfold resolve, get. by rewrite Hn. Qed.

End Properties.


(** * The script at work

    The theorems above at concrete inputs, in the realm and with the
    widget of [Sample]. *)

Lemma reachable_dresden : reachable Sample.dresden.
Proof. apply (reachable_init "dresden" "1833"). vm_compute. reflexivity. Qed.

Lemma reachable_munich : reachable Sample.munich.
Proof. apply (reachable_init "munich" "1400"). vm_compute. reflexivity. Qed.

Lemma ready_dragged : ready Sample.dragged.
Proof.
  pose proof (reachable_invariants _ reachable_dresden) as [Hready _].
  destruct (ready_panel L.Map1 _ Hready) as (m & Hm & _).
  unfold Sample.dragged, mbind, M_bind, theMap, modify. rewrite Hm.
  apply ready_viewed; assumption.
Qed.

Lemma ready_overdragged : ready Sample.overdragged.
Proof.
  pose proof (reachable_invariants _ reachable_dresden) as [Hready _].
  destruct (ready_panel L.Map1 _ Hready) as (m & Hm & _).
  unfold Sample.overdragged, mbind, M_bind, theMap, modify. rewrite Hm.
  apply ready_viewed; assumption.
Qed.

Lemma syncView_requests_view_witness :
  exists st' m1 m2,
    map1 Sample.dragged = Some m1 /\
    L.center m1 = Sample.draggedTo /\ L.zoom m1 = 15 /\
    fire 2 L.Map1 (ViewChanged L.Move) Sample.dragged = Normal tt st' /\
    map2 st' = Some m2 /\
    L.center m2 = Sample.draggedTo /\ L.zoom m2 = 15 /\
    map1 st' = Some m1 /\ syncing st' = false /\
    trace st' =
      (trace Sample.dragged ++
       [GuardSet true; ViewSet L.Map2 Sample.draggedTo 15 (Some false);
        GuardSet false])%list.
Proof.
  edestruct (syncView_requests_view 2 L.Map1 L.Move Sample.dragged)
    as (st' & Hrun & _ & Hexact & Hsame & Hguard & Htrace & _);
    [exact ready_dragged | lia | vm_compute; reflexivity | reflexivity
    | reflexivity | vm_compute; reflexivity |].
  eexists st', _, _. split; [vm_compute; reflexivity|].
  split; [reflexivity|]. split; [reflexivity|].
  split; [exact Hrun|].
  split; [apply Hexact; vm_compute; reflexivity|].
  split; [reflexivity|]. split; [reflexivity|].
  split; [exact Hsame|]. split; [exact Hguard|exact Htrace].
Defined.

(** C1, as the claim has it, fails where the view asked for is not one
    the other panel can take. The historical panel is dragged past the
    northern edge of [bounds], to latitude 72; the handler asks the
    modern panel for that view, and a widget that keeps the center
    inside [maxBounds] shows latitude 71. *)
Lemma syncView_view_not_exact :
  ready Sample.overdragged /\
  exists m st' m2,
    panel L.Map1 Sample.overdragged = Some m /\
    L.center m = Sample.draggedPast /\ L.zoom m = 13 /\
    L.maxBounds (L.mapOptions m) = bounds /\
    fire 2 L.Map1 (ViewChanged L.Move) Sample.overdragged = Normal tt st' /\
    panel L.Map2 st' = Some m2 /\
    (L.center m2, L.zoom m2) = (L.latLng 71 13.74, 13) /\
    (L.center m2, L.zoom m2) <> (Sample.draggedPast, 13).
Proof.
  split; [exact ready_overdragged|].
  eexists _, _, _. split; [vm_compute; reflexivity|].
  split; [reflexivity|]. split; [reflexivity|].
  split; [vm_compute; reflexivity|].
  split; [vm_compute; reflexivity|].
  split; [vm_compute; reflexivity|].
  split; [vm_compute; reflexivity|].
  vm_compute. discriminate.
Qed.

Lemma updateCursors_mirrors_witness :
  exists st' h1 h2 c1 c2,
    fire 1 L.Map2 (MouseMoved Sample.pointer) Sample.dresden = Normal tt st' /\
    cursor1 st' = Some h1 /\ cursor2 st' = Some h2 /\
    elements st' !! h1 = Some c1 /\ elements st' !! h2 = Some c2 /\
    styleLeft c1 = "40px" /\ styleTop c1 = "200px" /\
    styleLeft c2 = "40px" /\ styleTop c2 = "200px".
Proof.
  destruct (updateCursors_mirrors 1 L.Map2 Sample.pointer Sample.dresden)
    as (st' & h1 & h2 & c1 & c2 & Hrun & Hg1 & Hg2 & Hc1 & Hc2
        & Hx & Hy & Hx2 & Hy2);
    [exact (proj1 (reachable_invariants _ reachable_dresden)) | lia |].
  exists st', h1, h2, c1, c2.
  rewrite Hx2, Hy2, Hx, Hy.
  repeat (split; [assumption || (vm_compute; reflexivity)|]).
  vm_compute; reflexivity.
Defined.

Lemma initMaps_places_both_maps_witness :
  let st := final_state pageLoaded (initMaps "munich" "1888" pageLoaded) in
  exists m1 m2,
    map1 st = Some m1 /\ map2 st = Some m2 /\
    L.center m1 = L.latLng 48.1351 11.5820 /\ L.zoom m1 = 13 /\
    L.center m2 = L.latLng 48.1351 11.5820 /\ L.zoom m2 = 13 /\
    L.maxBounds (L.mapOptions m1)
      = L.latLngBounds (L.latLng 35 (-10)) (L.latLng 71 40) /\
    L.maxBounds (L.mapOptions m2)
      = L.latLngBounds (L.latLng 35 (-10)) (L.latLng 71 40).
Proof.
  destruct (initMaps_places_both_maps "munich" 48.1351 11.5820 "1888")
    as [_ H]; [vm_compute; reflexivity|exact H].
Defined.

Lemma updateHistoricalLayer_binds_url_witness :
  exists st',
    updateHistoricalLayer "dresden" "1833" Sample.munich = Normal tt st' /\
    present st' "tiles/d_1833/{z}/{x}/{y}.png".
Proof.
  edestruct updateHistoricalLayer_binds_url
    with (city := "dresden") (year := "1833") (folder := "d_1833")
         (st := Sample.munich) as (st' & Hrun & Hpresent & _);
    [vm_compute; reflexivity | vm_compute; reflexivity
    | exact (proj2 (reachable_invariants _ reachable_munich))
    | eexists; vm_compute; reflexivity |].
  exists st'. split; [exact Hrun|exact Hpresent].
Defined.

Lemma updateHistoricalLayer_rebinds_in_place_witness :
  exists st' l,
    updateHistoricalLayer "dresden" "1878" Sample.dresden = Normal tt st' /\
    histLayer st' = histLayer Sample.dresden /\
    histLayer st' = Some 3%nat /\
    layers st' !! 3%nat = Some l /\
    L.url l = "tiles/dre-1878-folder/{z}/{x}/{y}.png" /\
    length (layers st') = length (layers Sample.dresden) /\
    map1 st' = map1 Sample.dresden.
Proof.
  edestruct updateHistoricalLayer_rebinds_in_place
    with (city := "dresden") (year := "1878") (F1 := "d_1833")
         (F2 := "dre-1878-folder") (st := Sample.dresden) (h := 3%nat)
    as (st' & Hrun & Hh & Hurl & _ & _ & Hlen & Hm1 & _);
    [vm_compute; reflexivity | vm_compute; reflexivity
    | vm_compute; reflexivity | vm_compute; reflexivity
    | vm_compute; reflexivity |].
  eexists st', _. split; [exact Hrun|].
  split; [rewrite Hh; vm_compute; reflexivity|].
  split; [exact Hh|]. split; [exact Hurl|].
  split; [reflexivity|]. split; [exact Hlen|exact Hm1].
Defined.

Lemma one_historical_layer_witness :
  layerInvariant Sample.dresden /\
  layerInvariant
    (final_state Sample.dresden
       (updateHistoricalLayer "dresden" "1750" Sample.dresden)).
Proof. exact (one_historical_layer "dresden" "1750" _ reachable_dresden). Defined.

Lemma updateHistoricalLayer_idempotent_witness :
  let once :=
    final_state Sample.dresden
      (updateHistoricalLayer "munich" "1400" Sample.dresden) in
  let twice :=
    final_state once (updateHistoricalLayer "munich" "1400" once) in
  histLayer twice = histLayer once /\ layers twice = layers once /\
  map1 twice = map1 once.
Proof.
  destruct (updateHistoricalLayer_idempotent "munich" "1400" _
              reachable_dresden) as (Hh & Hl & Hm & _).
  split; [exact Hh|]. split; [exact Hl|exact Hm].
Defined.

Lemma falsy_folder_takes_absent_branch_witness :
  exists st',
    updateHistoricalLayerIn Sample.emptyFolderCatalog "rome" "1900"
      Sample.dresden = Normal tt st' /\
    absent st' /\ ~ present st' "tiles//{z}/{x}/{y}.png".
Proof.
  destruct (falsy_folder_takes_absent_branch Sample.emptyFolderCatalog
              "rome" "1900" Sample.dresden)
    as (Hreads & _ & _ & Hfalsy & _ & Hbranch).
  - exact (proj2 (reachable_invariants _ reachable_dresden)).
  - destruct (Hreads {[ "1900" := Some "" ]}) as (_ & Hempty & _);
      [vm_compute; reflexivity|].
    destruct (Hbranch (VString ""))
      as (Hsame & st' & Hrun & Habsent & Hnot & _);
      [apply Hempty; vm_compute; reflexivity | exact Hfalsy |].
    exists st'. rewrite Hsame. split; [exact Hrun|]. split; assumption.
Defined.

(** C10, as the claim has it, fails for a missing year that
    [Object.prototype] has a property for. Munich's catalog has [null]
    for 1400 and no entry for [constructor]; from the same state, the
    first call takes the Absent branch and the second does not: the
    lookup tells the missing year from the explicit [null]. *)
Lemma missing_year_told_from_null :
  (exists years,
     TILE_FOLDER_MAP !! "munich" = Some years /\
     years !! "1400" = Some None /\
     years !! "constructor" = None) /\
  layerInvariant Sample.munich /\
  updateHistoricalLayer "munich" "1400" Sample.munich
    = absentBranch "munich" "1400" Sample.munich /\
  updateHistoricalLayer "munich" "constructor" Sample.munich
    <> absentBranch "munich" "constructor" Sample.munich /\
  absent
    (final_state Sample.munich
       (updateHistoricalLayer "munich" "1400" Sample.munich)) /\
  ~ absent
    (final_state Sample.munich
       (updateHistoricalLayer "munich" "constructor" Sample.munich)).
Proof.
  split; [eexists; split_and!; vm_compute; reflexivity|].
  split; [exact (proj2 (reachable_invariants _ reachable_munich))|].
  split; [vm_compute; reflexivity|].
  split; [vm_compute; discriminate|].
  split; [vm_compute; reflexivity|].
  vm_compute. discriminate.
Qed.

(** C6. The resolver is total and resolves the names of its table and
    the names that nothing answers to as stated. A page name that
    [Object.prototype] has a property for is not resolved to the default
    city: [cityMap[filename]] reads the inherited property, which is
    truthy, and [getCurrentCity] returns it. For [/constructor.html] the
    result is the function [Object], not ['munich']. *)
Theorem getCurrentCity_inherited_name :
  cityMap !! "constructor" = None /\
  pageName "/constructor.html" = Some "constructor" /\
  getCurrentCity "/constructor.html"
    = Some (VIntrinsic (Sample.BuiltinFunction "Object" 1)) /\
  getCurrentCity "/constructor.html" ≠ Some (VString "munich").
Proof.
  split; [vm_compute; reflexivity|]. split; [vm_compute; reflexivity|].
  split; [vm_compute; reflexivity|]. vm_compute. discriminate.
Qed.

(** C2. A year the city's catalog has no entry for is Absent only when
    [Object.prototype] has nothing under that name either. Munich's
    catalog has no entry for the year [constructor]; the read yields the
    function [Object], which is truthy, and the call, made while the
    layer is Absent, creates a layer bound to a URL spelled from that
    function and attaches it. *)
Theorem updateHistoricalLayer_inherited_year :
  (exists years,
     TILE_FOLDER_MAP !! "munich" = Some years /\
     years !! "constructor" = None) /\
  absent Sample.munich /\
  exists st',
    updateHistoricalLayer "munich" "constructor" Sample.munich
      = Normal tt st' /\
    present st' "tiles/function Object() { [native code] }/{z}/{x}/{y}.png" /\
    ~ absent st'.
Proof.
  split; [eexists; split; vm_compute; reflexivity|].
  split; [vm_compute; reflexivity|].
  eexists. split; [vm_compute; reflexivity|]. split.
  - exists 3%nat. eexists. split; [vm_compute; reflexivity|].
    split; [vm_compute; reflexivity|]. split; [vm_compute; reflexivity|].
    eexists. split; [vm_compute; reflexivity|].
    cbn. do 1 apply list_elem_of_further. apply list_elem_of_here.
  - vm_compute. discriminate.
Qed.

(** * More of the script

    Properties of the code that the claims above leave out. *)

Section Coverage.
Context `{R : Realm} `{W : Widget}.

Ltac unfold_stmt :=
  unfold updateHistoricalLayerOf, updateHistoricalLayer,
    updateHistoricalLayerIn, absentBranch, removeLayer, setUrl, tileLayer,
    addTo, theMap, emit, lift, throw, gets, modify, mbind, M_bind, mret,
    M_ret in *.

(** ** The city resolver *)

Lemma pop_split_one name :
  Str.mem "/" name = false ->
  Str.pop (Str.split "/" name) = Some name.
Proof. intros Hname. by rewrite split_no_sep. Qed.

Lemma prefix_html_inside s rest :
  s ≠ "" -> String.prefix ".html" s = false ->
  String.prefix ".html" (s ++ ".html" ++ rest) = false.
Proof.
  intros Hs Hp. destruct s as [|c s]; [done|]. clear Hs.
  do 5 (change (String c s ++ ".html" ++ rest)
          with (String c (s ++ ".html" ++ rest));
        rewrite prefix_cons in Hp |- *;
        destruct (ascii_dec _ c) as [<-|]; [|done];
        destruct s as [|c s]; [done|]).
  done.
Qed.

Lemma prefix_html_self rest :
  String.prefix ".html"
    (String "." (String "h" (String "t" (String "m" (String "l" rest)))))
  = true.
Proof.
  do 5 (rewrite prefix_cons; destruct (ascii_dec _ _); [|done]).
  by destruct rest.
Qed.

Lemma replace_html_first name rest :
  Str.occurs ".html" name = false ->
  Str.replace ".html" "" (name ++ ".html" ++ rest) = name ++ rest.
Proof.
  induction name as [|c name IH].
  { intros _.
    change ("" ++ ".html" ++ rest)
      with (String "." (String "h" (String "t" (String "m" (String "l" rest))))).
    by rewrite replace_cons, prefix_html_self. }
  rewrite occurs_cons. intros [Hp Ho]%orb_false_iff.
  pose proof (prefix_html_inside (String c name) rest) as Hq.
  change (String c name ++ ".html" ++ rest)
    with (String c (name ++ ".html" ++ rest)) in *.
  rewrite replace_cons, Hq by done.
  change (String c name ++ rest) with (String c (name ++ rest)).
  by rewrite IH.
Qed.

(** X1. Neither the directory nor the extension matters to the
    resolver: for a page name without [/] and without [.html] inside,
    [dir/name.html] and [dir/name] resolve alike, to the city of the
    table when the name is in the table (the empty name included, so a
    path that ends in [/] gives munich), and to munich when it is not
    and [Object.prototype] has nothing truthy under that name. *)
Theorem getCurrentCity_resolves_page dir name :
  Str.mem "/" name = false -> Str.occurs ".html" name = false ->
  getCurrentCity (dir ++ "/" ++ name ++ ".html")
    = getCurrentCity (dir ++ "/" ++ name) /\
  (forall city,
     cityMap !! name = Some city ->
     getCurrentCity (dir ++ "/" ++ name ++ ".html") = Some (VString city)) /\
  (cityMap !! name = None ->
   truthy (object_prototype_get name) = false ->
   getCurrentCity (dir ++ "/" ++ name ++ ".html") = Some (VString "munich")).
Proof.
  intros Hslash Hhtml.
  destruct (getCurrentCity_page dir name Hslash Hhtml) as [-> ->].
  split; [done|]. split.
  - intros city Hcity. by rewrite (resolve_table name city).
  - intros Hnone Hproto. by rewrite resolve_other, Hproto.
Qed.

(** X2. The extension is not anchored at the end of the name: the first
    [.html] of the last path segment is removed wherever it stands and
    what follows it is kept, so [name.html] followed by [rest] gives
    the page name [name ++ rest]. *)
Theorem pageName_first_occurrence dir name rest :
  Str.mem "/" name = false -> Str.mem "/" rest = false ->
  Str.occurs ".html" name = false ->
  pageName (dir ++ "/" ++ name ++ ".html" ++ rest) = Some (name ++ rest) /\
  getCurrentCity (dir ++ "/" ++ name ++ ".html" ++ rest)
    = Some (resolve (name ++ rest)).
Proof.
  intros Hname Hrest Hhtml.
  assert (pageName (dir ++ "/" ++ name ++ ".html" ++ rest)
          = Some (name ++ rest)) as Hpage.
  { unfold pageName. rewrite pop_split.
    - cbn. by rewrite replace_html_first.
    - rewrite !mem_append, Hname, Hrest. done. }
  split; [done|].
  destruct (getCurrentCity_total (dir ++ "/" ++ name ++ ".html" ++ rest))
    as (n & Hn & ->).
  congruence.
Qed.


(** ** updateHistoricalLayer *)

(** X3. [updateHistoricalLayer] touches the historical layer and nothing
    else: whatever the arguments and however the call completes, the
    secondary map, the guard, the cursor indicators, the base layers,
    and on the primary map everything but its list of layers (view,
    options, controls, listeners) are as before. *)
Theorem updateHistoricalLayer_frame city year st :
  let st' := final_state st (updateHistoricalLayer city year st) in
  map2 st' = map2 st /\ syncing st' = syncing st /\
  cursor1 st' = cursor1 st /\ cursor2 st' = cursor2 st /\
  elements st' = elements st /\ documentCursors st' = documentCursors st /\
  baseLayers st' = baseLayers st /\
  match map1 st, map1 st' with
  | Some m, Some m' =>
      L.center m' = L.center m /\ L.zoom m' = L.zoom m /\
      L.mapOptions m' = L.mapOptions m /\ L.container m' = L.container m /\
      L.layerControls m' = L.layerControls m /\
      L.listeners m' = L.listeners m
  | None, None => True
  | _, _ => False
  end.
Proof.
  destruct (updateHistoricalLayerIn_frame TILE_FOLDER_MAP city year st)
    as (Hm1 & ? & ? & ? & ? & ? & ? & ?).
  cbn. unfold updateHistoricalLayer. split_and!; try done.
  destruct (map1 st) as [m|],
    (map1 (final_state st (updateHistoricalLayerIn TILE_FOLDER_MAP city year st)))
    as [m'|]; try done.
  assert (L.with_layers [] m' = L.with_layers [] m) as Hf
    by (cbn in Hm1; congruence).
  split_and!.
  - by apply (f_equal L.center) in Hf.
  - by apply (f_equal L.zoom) in Hf.
  - by apply (f_equal L.mapOptions) in Hf.
  - by apply (f_equal L.container) in Hf.
  - by apply (f_equal L.layerControls) in Hf.
  - by apply (f_equal L.listeners) in Hf.
Qed.

(** X4. When there is nothing to show (the entry is [null] or empty, or
    the year or the city is missing and [Object.prototype] has nothing
    truthy under the name), the call returns and the layer is Absent
    afterwards. A layer that was Present is taken off the primary map
    by one [removeLayer], its object stays in the store untouched; a
    layer that was Absent leaves the state as it was. Either way exactly
    one warning is written, naming the city and the year. *)
Theorem updateHistoricalLayer_detaches (T : Catalog) city year st :
  Unavailable T city year ->
  layerInvariant st ->
  exists st',
    updateHistoricalLayerIn T city year st = Normal tt st' /\
    absent st' /\
    layers st' = layers st /\
    match histLayer st with
    | Some h =>
        ~ attached st' h /\
        trace st' =
          (trace st ++
           [Warned ("Tiles for " ++ city ++ " year " ++ year ++
                    " are not yet available. Showing background only.");
            LayerRemoved L.Map1 h])%list
    | None =>
        st' =
        set_trace
          (trace st ++
           [Warned ("Tiles for " ++ city ++ " year " ++ year ++
                    " are not yet available. Showing background only.")])
          st
    end.
Proof.
  intros (v & Hl & Hv)%Unavailable_falsy Hinv.
  rewrite (updateHistoricalLayerIn_falsy T city year v) by done.
  by apply absentBranch_outcome.
Qed.

(** X5. A call that throws has changed nothing: while the primary map
    exists, an exception can only come from reading the folder or from
    spelling it into the URL, both before the first effect, and the
    state is exactly the one before the call. For a city and a year
    that the catalog lists the call does not throw at all. *)
Theorem updateHistoricalLayer_throws_before_effects (T : Catalog) city year st :
  is_Some (map1 st) ->
  (forall e st',
     updateHistoricalLayerIn T city year st = Thrown e st' -> st' = st) /\
  (forall years entry,
     T !! city = Some years -> years !! year = Some entry ->
     exists st', updateHistoricalLayerIn T city year st = Normal tt st').
Proof.
  intros [m Hm]. split.
  - intros e st' Hthrown.
    destruct (updateHistoricalLayerIn_thrown T city year st e st' Hthrown)
      as (_ & _ & _ & _ & _ & _ & _ & [Hnone| ->]); [congruence|done].
  - intros years entry HT Hy.
    pose proof (lookupFolder_own T city year years entry HT Hy) as Hl.
    unfold_stmt. rewrite Hl. cbn.
    destruct entry as [folder|]; cbn.
    + destruct (negb (String.eqb folder "")); cbn.
      * destruct (histLayer st); cbn; [by eexists|].
        rewrite Hm. cbn. by eexists.
      * destruct (histLayer st); cbn; [|by eexists].
        rewrite Hm. cbn. by eexists.
    + destruct (histLayer st); cbn; [|by eexists].
      rewrite Hm. cbn. by eexists.
Qed.

Lemma with_url_restore u1 u2 (l : L.TileLayer) :
  L.url l = u1 -> L.with_url u1 (L.with_url u2 l) = l.
Proof. intros <-. by destruct l. Qed.

(** X6. Switching the year and switching back restores the layer
    exactly. With the layer Present for folder F1, a call for a year
    with folder F2 followed by a call for the year with folder F1 leaves
    the same handle, the same store of layer objects and the same maps
    as at the start: no layer is created or removed on the way, the two
    calls are two [setUrl]s. *)
Theorem updateHistoricalLayer_there_and_back
    city1 year1 years1 F1 city2 year2 years2 F2 st h l :
  TILE_FOLDER_MAP !! city1 = Some years1 ->
  years1 !! year1 = Some (Some F1) ->
  TILE_FOLDER_MAP !! city2 = Some years2 ->
  years2 !! year2 = Some (Some F2) ->
  histLayer st = Some h -> layers st !! h = Some l ->
  L.url l = tileUrlOf F1 ->
  exists st2 st3,
    updateHistoricalLayer city2 year2 st = Normal tt st2 /\
    updateHistoricalLayer city1 year1 st2 = Normal tt st3 /\
    L.url <$> layers st2 !! h = Some (tileUrlOf F2) /\
    histLayer st3 = histLayer st /\ layers st3 = layers st /\
    map1 st3 = map1 st /\ map2 st3 = map2 st /\
    trace st3 =
      (trace st ++ [UrlSet h (tileUrlOf F2); UrlSet h (tileUrlOf F1)])%list.
Proof.
  intros HT1 Hy1 HT2 Hy2 Hh Hlk Hurl.
  pose proof (TILE_FOLDER_MAP_folders _ _ _ _ HT1 Hy1) as Hne1.
  pose proof (TILE_FOLDER_MAP_folders _ _ _ _ HT2 Hy2) as Hne2.
  pose proof (lookupFolder_own _ _ _ _ _ HT1 Hy1) as Hl1.
  pose proof (lookupFolder_own _ _ _ _ _ HT2 Hy2) as Hl2.
  assert (truthy (VString F1) = true) as Hv1
    by (apply (folderValue_truthy (Some F1)); eauto).
  assert (truthy (VString F2) = true) as Hv2
    by (apply (folderValue_truthy (Some F2)); eauto).
  unfold updateHistoricalLayer.
  rewrite (updateHistoricalLayerIn_rebind _ city2 year2 _ F2 st h) by done.
  eexists _, _. split; [reflexivity|].
  rewrite (updateHistoricalLayerIn_rebind _ city1 year1 _ F1 _ h) by done.
  split; [reflexivity|]. cbn.
  split_and!; try done.
  - rewrite list_lookup_alter, decide_True by done. by rewrite Hlk.
  - rewrite list_alter_alter_eq. apply list_eq. intros i.
    destruct (decide (h = i)) as [<-|Hne].
    + rewrite list_lookup_alter, decide_True by done. rewrite Hlk. cbn.
      by rewrite with_url_restore.
    + by rewrite list_lookup_alter_ne.
  - by rewrite <- app_assoc.
Qed.

(** X7. Through a year without imagery the layer object is not kept:
    from Present, a call for a year with nothing to show followed by a
    call for a year with a folder ends Present again with that folder's
    URL, but on a new layer object; the store has grown by one and the
    former object is no longer on the primary map. *)
Theorem updateHistoricalLayer_through_absent
    cityA yearA city year years folder st h :
  Unavailable TILE_FOLDER_MAP cityA yearA ->
  TILE_FOLDER_MAP !! city = Some years ->
  years !! year = Some (Some folder) ->
  layerInvariant st -> histLayer st = Some h ->
  exists st1 st2,
    updateHistoricalLayer cityA yearA st = Normal tt st1 /\
    updateHistoricalLayer city year st1 = Normal tt st2 /\
    absent st1 /\
    present st2 (tileUrlOf folder) /\
    histLayer st2 = Some (length (layers st)) /\
    histLayer st2 ≠ Some h /\
    ~ attached st2 h /\
    length (layers st2) = S (length (layers st)).
Proof.
  intros Hun HT Hy Hinv Hh.
  destruct (layerInvariant_histLayer st h Hinv Hh) as (Hlt & (m & Hm & _) & _).
  apply Unavailable_falsy in Hun as (v & Hl & Hv).
  unfold updateHistoricalLayer.
  rewrite (updateHistoricalLayerIn_falsy _ cityA yearA v) by done.
  destruct (absentBranch_some cityA yearA st h m Hh Hm)
    as (st1 & Hrun1 & Hh1 & Hm1 & Hls1 & _).
  pose proof (TILE_FOLDER_MAP_folders _ _ _ _ HT Hy) as Hne.
  pose proof (lookupFolder_own _ _ _ _ _ HT Hy) as Hlf.
  assert (truthy (VString folder) = true) as Hvf
    by (apply (folderValue_truthy (Some folder)); eauto).
  destruct (updateHistoricalLayerIn_create TILE_FOLDER_MAP city year _
              folder st1 _ Hlf Hvf eq_refl Hh1 Hm1)
    as (st2 & Hrun2 & Hh2 & Hls2 & Hm2 & _).
  exists st1, st2. rewrite Hls1 in *. cbn in Hm2.
  assert (length (layers st) ∉
          filter (fun h' => h' ≠ h) (L.mapLayers m)) as Hfresh.
  { intros [_ Hin]%list_elem_of_filter.
    unfold layerInvariant in Hinv. rewrite Hm in Hinv.
    destruct Hinv as (_ & Hvalid & _). rewrite Forall_forall in Hvalid.
    apply Hvalid in Hin. lia. }
  rewrite bool_decide_eq_false_2 in Hm2 by done. cbn in Hm2.
  split_and!; try done.
  - exists (length (layers st)). eexists.
    split; [done|]. split; [by rewrite Hls2, list_lookup_middle|].
    split; [done|]. eexists. split; [exact Hm2|]. cbn. set_solver.
  - rewrite Hh2. intros [= Heq]. lia.
  - intros (m' & Hm' & Hin). rewrite Hm2 in Hm'. injection Hm' as <-.
    cbn in Hin. apply elem_of_app in Hin as [Hin|Hin].
    + apply list_elem_of_filter in Hin. tauto.
    + apply list_elem_of_singleton in Hin. lia.
  - rewrite Hls2, length_app. cbn. lia.
Qed.


(** ** initMaps from any state *)

Lemma initMaps_unfold_any city la lo year st :
  centerCoords !! city = Some (la, lo) ->
  map1 st = None \/ (is_Some (map1 st) /\ is_Some (map2 st)) ->
  initMaps city year st =
  (updateHistoricalLayer city year;; wiring) (rebuilt (L.latLng la lo) st).
Proof.
  intros Hc Hmaps. unfold initMaps, centerOf. rewrite Hc.
  destruct st as [ls els dcs mp1 mp2 c1 c2 hl bl sy tr]. cbn in Hmaps.
  destruct Hmaps as [->|[[m1 ->] [m2 ->]]];
    lazy -[updateHistoricalLayer length app];
    rewrite !length_app; rewrite <- !app_assoc;
    cbn [app length Nat.add];
    replace (length ls + 1)%nat with (S (length ls)) by lia;
    replace (S (length ls) + 1)%nat with (S (S (length ls))) by lia;
    reflexivity.
Qed.

Lemma wiring_result st m1 m2 :
  map1 st = Some m1 -> map2 st = Some m2 ->
  L.listeners m1 = [] -> L.listeners m2 = [] ->
  let n := length (elements st) in
  exists st',
    wiring st = Normal tt st' /\
    map1 st' = Some (L.with_listeners (installed L.Map1) m1) /\
    map2 st' = Some (L.with_listeners (installed L.Map2) m2) /\
    syncing st' = false /\
    cursor1 st' = Some n /\ cursor2 st' = Some (S n) /\
    elements st' =
      (elements st ++
       [ {| className := "cursor"; parentId := "map1";
            styleLeft := ""; styleTop := "" |};
         {| className := "cursor"; parentId := "map2";
            styleLeft := ""; styleTop := "" |} ])%list /\
    documentCursors st' = [n; S n] /\
    layers st' = layers st /\ histLayer st' = histLayer st /\
    baseLayers st' = baseLayers st /\ trace st' = trace st.
Proof.
  intros H1 H2 Hl1 Hl2 n. subst n.
  destruct st as [ls els dcs mp1 mp2 c1 c2 hl bl sy tr].
  destruct m1, m2. cbn in *. subst.
  eexists. split; [lazy -[length app]; reflexivity|]. cbn.
  rewrite <- ?app_assoc, ?length_app. cbn [app length Nat.add].
  replace (length els + 1)%nat with (S (length els)) by lia.
  split_and!; done.
Qed.

(** [initMaps], called while both widgets exist or neither does: it
    throws where [updateHistoricalLayer] throws, on the widgets just
    built, and otherwise returns the state that the wiring makes of
    the one [updateHistoricalLayer] left. *)
Lemma initMaps_result city la lo year st :
  centerCoords !! city = Some (la, lo) ->
  map1 st = None \/ (is_Some (map1 st) /\ is_Some (map2 st)) ->
  let st0 := rebuilt (L.latLng la lo) st in
  let st1 := final_state st0 (updateHistoricalLayer city year st0) in
  (exists e, initMaps city year st = Thrown e st1) \/
  (exists st' m1,
     updateHistoricalLayer city year st0 = Normal tt st1 /\
     initMaps city year st = Normal tt st' /\
     wiring st1 = Normal tt st' /\
     map1 st1 = Some m1 /\ L.listeners m1 = [] /\
     map2 st1 = map2 st0 /\
     map1 st' = Some (L.with_listeners (installed L.Map1) m1)).
Proof.
  intros Hc Hmaps st0 st1.
  rewrite (initMaps_unfold_any city la lo) by done. fold st0.
  pose proof (updateHistoricalLayerIn_frame TILE_FOLDER_MAP city year st0)
    as (Hf1 & Hf2 & _).
  pose proof (updateHistoricalLayerIn_finishes TILE_FOLDER_MAP city year st0)
    as Hfin.
  fold (updateHistoricalLayer city year) in Hf1, Hf2, Hfin. fold st1 in Hf1, Hf2.
  unfold mbind, M_bind. subst st1.
  destruct (updateHistoricalLayer city year st0) as [[] st1|e st1|];
    [|left; by exists e|done].
  right. cbn in Hf1, Hf2 |- *.
  destruct (map1 st1) as [m1|] eqn:Hm1; [|done].
  assert (L.listeners m1 = []) as Hl1.
  { cbn in Hf1. apply (inj Some) in Hf1.
    by apply (f_equal L.listeners) in Hf1. }
  destruct (wiring_result st1 m1 _ Hm1 Hf2 Hl1 eq_refl)
    as (st' & Hw & Hm1' & _).
  exists st', m1. by rewrite Hw.
Qed.

(** ** What holds between events *)

Lemma baseAt_ext b st st' :
  L.mapLayers <$> map1 st' = L.mapLayers <$> map1 st ->
  layers st' = layers st -> histLayer st' = histLayer st ->
  baseAt b st -> baseAt b st'.
Proof.
  intros Hm Hls Hh (m & l & Hm1 & Hml & Hl & Hurl & Hnot).
  rewrite Hm1 in Hm. destruct (map1 st') as [m'|] eqn:Hm'; [|done].
  exists m', l. rewrite Hls, Hh. split_and!; try done.
  - cbn in Hm. congruence.
  - unfold isHistorical in *. by rewrite Hls.
Qed.

Lemma baseKept_ext st st' :
  L.mapLayers <$> map1 st' = L.mapLayers <$> map1 st ->
  layers st' = layers st -> histLayer st' = histLayer st ->
  baseKept st -> baseKept st'.
Proof. intros ? ? ? [b Hb]. exists b. by eapply baseAt_ext. Qed.

Lemma cursorsAligned_ext st st' :
  cursor1 st' = cursor1 st -> cursor2 st' = cursor2 st ->
  documentCursors st' = documentCursors st ->
  elements st' = elements st ->
  cursorsAligned st -> cursorsAligned st'.
Proof. unfold cursorsAligned. by intros -> -> -> ->. Qed.

Lemma cursorsAligned_update (T : Catalog) city year st :
  cursorsAligned st ->
  cursorsAligned (final_state st (updateHistoricalLayerIn T city year st)).
Proof.
  intros Hc.
  destruct (updateHistoricalLayerIn_frame T city year st)
    as (_ & _ & _ & ? & ? & ? & ? & _).
  by eapply cursorsAligned_ext; [..|exact Hc].
Qed.

Lemma baseAt_update (T : Catalog) b city year st :
  layerInvariant st -> baseAt b st ->
  baseAt b (final_state st (updateHistoricalLayerIn T city year st)).
Proof.
  intros Hinv Hbase.
  pose proof Hbase as (m & l & Hm & Hml & Hlb & Hurl & Hnot).
  destruct (lookupFolder T city year) as [e|v] eqn:Hl.
  { unfold_stmt. by rewrite Hl. }
  destruct (truthy v) eqn:Hv.
  - destruct (to_string v) as [e|name] eqn:Hs.
    { unfold_stmt. rewrite Hl, Hv. cbn. by rewrite Hs. }
    destruct (histLayer st) as [h|] eqn:Hh.
    + rewrite (updateHistoricalLayerIn_rebind T city year v name st h) by done.
      destruct (layerInvariant_histLayer st h Hinv Hh) as (_ & _ & Hhist).
      assert (h ≠ b) as Hne by (by intros ->).
      exists m, l. cbn. rewrite Hh. split_and!; try done.
      * by rewrite list_lookup_alter_ne.
      * unfold isHistorical in *. cbn. by rewrite layerOptions_alter_url.
    + destruct (updateHistoricalLayerIn_create T city year v name st m)
        as (st' & -> & Hh' & Hls & Hm' & _); [done..|].
      cbn. assert (b < length (layers st))%nat as Hlt
        by (by eapply lookup_lt_Some).
      rewrite Hml in Hm'. cbn in Hm'.
      rewrite bool_decide_eq_false_2 in Hm'.
      2: { intros Hin%list_elem_of_singleton. lia. }
      eexists _, l. rewrite Hh', Hls. split_and!; try done.
      * by rewrite lookup_app_l.
      * unfold isHistorical in *. rewrite Hls. by rewrite lookup_app_l.
  - rewrite (updateHistoricalLayerIn_falsy T city year v) by done.
    destruct (histLayer st) as [h|] eqn:Hh.
    + destruct (absentBranch_some city year st h m)
        as (st' & -> & Hh' & Hm' & Hls & _); [done..|].
      destruct (layerInvariant_histLayer st h Hinv Hh) as (_ & _ & Hhist).
      assert (b ≠ h) as Hne by (by intros ->).
      cbn. eexists _, l. rewrite Hh', Hls. split_and!; try done.
      * rewrite Hml. change (option_list (Some h)) with [h].
        rewrite filter_cons_True by done.
        by rewrite filter_cons_False by tauto.
      * unfold isHistorical in *. by rewrite Hls.
    + rewrite absentBranch_none by done. cbn.
      eapply baseAt_ext; [..|exact Hbase]; done.
Qed.

Lemma baseKept_update (T : Catalog) city year st :
  layerInvariant st -> baseKept st ->
  baseKept (final_state st (updateHistoricalLayerIn T city year st)).
Proof. intros ? [b Hb]. exists b. by apply baseAt_update. Qed.

Lemma mirrored_keeps (l : list Cursor) h1 h2 x y h c :
  l !! h = Some c ->
  exists c',
    alter (with_top y) h2 (alter (with_left x) h2
      (alter (with_top y) h1 (alter (with_left x) h1 l))) !! h = Some c' /\
    className c' = className c /\ parentId c' = parentId c /\
    (h = h1 \/ h = h2 -> styleLeft c' = x /\ styleTop c' = y) /\
    (h ≠ h1 -> h ≠ h2 -> c' = c).
Proof.
  intros Hc. rewrite !list_lookup_alter.
  repeat case_decide; simplify_eq; rewrite Hc; cbn;
    (eexists; split; [reflexivity|]); cbn; split_and!; try done;
    intuition congruence.
Qed.

Lemma steady_init city year st :
  initMaps city year pageLoaded = Normal tt st -> steady st.
Proof.
  intros Hinit.
  destruct (centerCoords !! city) as [[la lo]|] eqn:Hc.
  2: { destruct (initMaps_unknown_city city year Hc) as (e & st' & He).
       congruence. }
  destruct (initMaps_result city la lo year pageLoaded Hc (or_introl eq_refl))
    as [(e & He)|(st' & m1 & Hu & Hi & Hw & Hm1 & Hl1 & Hm2 & _)];
    [congruence|].
  assert (st' = st) as -> by congruence.
  set (st0 := rebuilt (L.latLng la lo) pageLoaded) in *.
  set (st1 := final_state st0 (updateHistoricalLayer city year st0)) in *.
  assert (baseKept st1) as Hb1.
  { apply baseKept_update; [apply (layerInvariant_built (L.latLng la lo))|].
    exists 0%nat. eexists _, _. split_and!; done. }
  destruct (updateHistoricalLayerIn_frame TILE_FOLDER_MAP city year st0)
    as (_ & _ & _ & _ & _ & Hel & _).
  fold (updateHistoricalLayer city year) in Hel. fold st1 in Hel.
  destruct (wiring_result st1 m1 _ Hm1 Hm2 Hl1 eq_refl)
    as (st' & Hw' & Hm1' & Hm2' & _ & Hc1 & Hc2 & Hels & Hdc & Hls & Hh & _).
  assert (st' = st) as -> by congruence.
  rewrite Hel in *. cbn in Hc1, Hc2, Hels, Hdc.
  split.
  - eapply baseKept_ext; [..|exact Hb1]; try done.
    by rewrite Hm1', Hm1.
  - unfold cursorsAligned. rewrite Hc1, Hc2, Hels, Hdc.
    eexists 0%nat, 1%nat, _, _. split_and!; done.
Qed.

Lemma steady_step st st' :
  step st st' -> ready st -> layerInvariant st -> steady st -> steady st'.
Proof.
  intros Hstep Hready Hinv (Hb & Hc).
  destruct Hstep as [city year st c <-|fuel p ctr z v st st' Hg
                    |fuel p e st st' Hf].
  - split.
    + by apply baseKept_update.
    + by apply cursorsAligned_update.
  - destruct (ready_panel p st Hready) as (m & Hm & _).
    destruct (ready_panel (L.other p) st Hready) as (m' & Hm' & _).
    rewrite (gesture_normal _ _ _ _ _ _ _ m m' Hready Hm Hm' Hg).
    split.
    + eapply baseKept_ext; [..|exact Hb];
        unfold copied; destruct p; cbn in *; rewrite ?Hm, ?Hm'; done.
    + eapply cursorsAligned_ext; [..|exact Hc]; unfold copied;
        by destruct p.
  - destruct fuel as [|n]; [done|].
    rewrite fire_pointer in Hf by done.
    destruct Hc as (h1 & h2 & c1 & c2 & Hh1 & Hh2 & Hne & Hdc & Hc1 & Hc2
                    & Hk1 & Hk2 & Hp1 & Hp2 & _).
    rewrite (updateCursors_run e st h1 h2) in Hf by done.
    injection Hf as <-.
    split.
    + by eapply baseKept_ext; [..|exact Hb].
    + destruct (mirrored_keeps (elements st) h1 h2
        (px (number_sub (clientX e) (rectLeft e)))
        (px (number_sub (clientY e) (rectTop e))) h1 c1 Hc1)
        as (c1' & Hc1' & Hk1' & Hp1' & Hs1 & _).
      destruct (mirrored_keeps (elements st) h1 h2
        (px (number_sub (clientX e) (rectLeft e)))
        (px (number_sub (clientY e) (rectTop e))) h2 c2 Hc2)
        as (c2' & Hc2' & Hk2' & Hp2' & Hs2 & _).
      destruct Hs1 as [Hx1 Hy1]; [by left|].
      destruct Hs2 as [Hx2 Hy2]; [by right|].
      exists h1, h2, c1', c2'. cbn.
      split_and!; try done; congruence.
Qed.

Lemma reachable_steady st : reachable st -> steady st.
Proof.
  induction 1 as [city year st Hinit|st st' Hreach IH Hstep].
  - by eapply steady_init.
  - destruct (reachable_invariants st Hreach) as [Hready Hinv].
    by eapply steady_step.
Qed.


(** X9. The base layer of the primary map is never taken off: in every
    state of a page session the layers on the primary map are the
    OpenStreetMap layer that [initMaps] attached first, followed by the
    historical layer when there is one, and nothing else. *)
Theorem base_layer_stays st :
  reachable st ->
  exists m b l,
    map1 st = Some m /\
    L.mapLayers m = b :: option_list (histLayer st) /\
    layers st !! b = Some l /\
    L.url l = "https://{s}.tile.openstreetmap.org/{z}/{x}/{y}.png" /\
    L.layerOptions l ≠ historicalOptions.
Proof.
  intros ((b & m & l & Hm & Hml & Hl & Hurl & Hnot) & _)%reachable_steady.
  exists m, b, l. split_and!; try done.
  intros Heq. apply Hnot. unfold isHistorical. by rewrite Hl, <- Heq.
Qed.

(** X10. In every state of a page session the document holds exactly
    two cursor indicators, the ones [cursor1] and [cursor2] name, of
    class [cursor], the first inside [map1] and the second inside
    [map2], and their [left] and [top] are equal. *)
Theorem cursors_stay_aligned st :
  reachable st ->
  exists h1 h2 c1 c2,
    cursor1 st = Some h1 /\ cursor2 st = Some h2 /\ h1 ≠ h2 /\
    documentCursors st = [h1; h2] /\
    elements st !! h1 = Some c1 /\ elements st !! h2 = Some c2 /\
    className c1 = "cursor" /\ className c2 = "cursor" /\
    parentId c1 = "map1" /\ parentId c2 = "map2" /\
    styleLeft c1 = styleLeft c2 /\ styleTop c1 = styleTop c2.
Proof. by intros (_ & Hc)%reachable_steady. Qed.

(** X11. Listeners do not pile up and the guard does not stay set: in
    every state of a page session each panel carries exactly three
    listeners, [syncView] towards the other panel for [move] and for
    [zoom] and [updateCursors] for [mousemove], and [syncing] is
    false. *)
Theorem listeners_and_guard_between_events st :
  reachable st ->
  syncing st = false /\
  exists m1 m2,
    map1 st = Some m1 /\ map2 st = Some m2 /\
    L.listeners m1 =
      [ (L.OnView L.Move, L.SyncView L.Map1 L.Map2);
        (L.OnView L.Zoom, L.SyncView L.Map1 L.Map2);
        (L.OnMouseMove, L.UpdateCursors) ] /\
    L.listeners m2 =
      [ (L.OnView L.Move, L.SyncView L.Map2 L.Map1);
        (L.OnView L.Zoom, L.SyncView L.Map2 L.Map1);
        (L.OnMouseMove, L.UpdateCursors) ].
Proof.
  intros [((m1 & Hm1 & Hl1) & (m2 & Hm2 & Hl2) & Hs & _) _]%reachable_invariants.
  split; [done|]. by exists m1, m2.
Qed.

(** ** Gestures *)

Lemma gesture_run n p c z v st m m' :
  ready st -> panel p st = Some m -> panel (L.other p) st = Some m' ->
  gesture (S (S n)) p c z v st =
  Normal tt
    (copied p (L.with_view c z m) m' (set_panel p (L.with_view c z m) st)).
Proof.
  intros Hready Hm Hm'. unfold gesture.
  unfold mbind, M_bind, theMap, modify. rewrite Hm.
  apply fire_view.
  - by apply ready_viewed.
  - by destruct p.
  - by destruct p.
Qed.

(** X12. A gesture on either panel ends with that panel on the view of
    the gesture, the other panel on the view the widget makes of the
    request for it, and the guard down again. The script has called
    [setView] once, on the other panel, for the view of the gesture and
    with animation off, and has touched neither layers nor cursors. *)
Theorem gesture_asks_other_panel fuel p c z v st m' :
  ready st -> (2 <= fuel)%nat ->
  panel (L.other p) st = Some m' ->
  exists st',
    gesture fuel p c z v st = Normal tt st' /\
    viewOf p st' = Some (c, z) /\
    viewOf (L.other p) st' =
      Some (setView_view (L.mapOptions m') (L.center m', L.zoom m') (c, z)) /\
    syncing st' = false /\
    trace st' =
      (trace st ++
       [GuardSet true; ViewSet (L.other p) c z (Some false); GuardSet false])%list /\
    layers st' = layers st /\ histLayer st' = histLayer st /\
    elements st' = elements st /\
    L.mapLayers <$> map1 st' = L.mapLayers <$> map1 st /\
    L.mapLayers <$> map2 st' = L.mapLayers <$> map2 st.
Proof.
  intros Hready Hfuel Hm'. destruct fuel as [|[|n]]; [lia..|].
  destruct (ready_panel p st Hready) as (m & Hm & _).
  rewrite (gesture_run n p c z v st m m') by done.
  eexists. split; [reflexivity|].
  pose proof Hready as (_ & _ & Hs & _).
  unfold viewOf, copied, synced.
  destruct p; cbn in *; rewrite ?Hm, ?Hm'; cbn; split_and!; try done;
    by destruct (setView_view _ _ _).
Qed.




(** ** Pointer moves *)

(** X14. A pointer move changes the two cursor indicators and nothing
    else, and of them only [left] and [top]: maps, layers, guard and
    trace are as before (no call into the widget), every other element
    is untouched, and each indicator keeps its class and its parent. *)
Theorem pointer_move_frame fuel p (e : Pointer) st :
  ready st -> (1 <= fuel)%nat ->
  exists st' h1 h2,
    fire fuel p (MouseMoved e) st = Normal tt st' /\
    cursor1 st = Some h1 /\ cursor2 st = Some h2 /\
    st' = set_elements (elements st') st /\
    length (elements st') = length (elements st) /\
    forall h c,
      elements st !! h = Some c ->
      exists c',
        elements st' !! h = Some c' /\
        className c' = className c /\ parentId c' = parentId c /\
        (h ≠ h1 -> h ≠ h2 -> c' = c).
Proof.
  intros Hready Hfuel. destruct fuel as [|n]; [lia|].
  pose proof Hready as (_ & _ & _ & (h1 & Hh1 & _) & (h2 & Hh2 & _)).
  rewrite fire_pointer by done.
  rewrite (updateCursors_run e st h1 h2) by done.
  eexists _, h1, h2. split; [reflexivity|]. cbn.
  split; [done|]. split; [done|]. split; [by destruct st|].
  split; [by rewrite !length_alter|].
  intros h c Hc.
  destruct (mirrored_keeps (elements st) h1 h2
    (px (number_sub (clientX e) (rectLeft e)))
    (px (number_sub (clientY e) (rectTop e))) h c Hc)
    as (c' & Hc' & Hk & Hp & _ & Hsame).
  by exists c'.
Qed.


(** ** initMaps, again *)

(** A call leaves the layer objects other than the historical one as
    they are. *)
Lemma updateHistoricalLayerIn_keeps_others (T : Catalog) city year st i :
  (i < length (layers st))%nat -> histLayer st ≠ Some i ->
  layers (final_state st (updateHistoricalLayerIn T city year st)) !! i
  = layers st !! i.
Proof.
  intros Hi Hne. unfold_stmt.
  destruct (lookupFolder T city year) as [e|v]; cbn; [done|].
  destruct (truthy v); cbn.
  - destruct (to_string v) as [e|name]; cbn; [done|].
    destruct (histLayer st) as [h|]; cbn.
    + apply list_lookup_alter_ne. congruence.
    + destruct (map1 st); cbn; by rewrite lookup_app_l.
  - destruct (histLayer st) as [h|]; cbn; [|done].
    by destruct (map1 st).
Qed.

(** What [initMaps] leaves, however it completes, in terms of what
    [updateHistoricalLayer] left on the widgets just built: the wiring
    adds listeners and cursors only. *)
Lemma initMaps_final city la lo year st :
  centerCoords !! city = Some (la, lo) ->
  map1 st = None \/ (is_Some (map1 st) /\ is_Some (map2 st)) ->
  let st0 := rebuilt (L.latLng la lo) st in
  let st1 := final_state st0 (updateHistoricalLayer city year st0) in
  let stf := final_state st (initMaps city year st) in
  layers stf = layers st1 /\ histLayer stf = histLayer st1 /\
  baseLayers stf = baseLayers st1 /\ trace stf = trace st1 /\
  L.with_listeners [] <$> map1 stf = L.with_listeners [] <$> map1 st1 /\
  L.with_listeners [] <$> map2 stf = L.with_listeners [] <$> map2 st1.
Proof.
  intros Hc Hmaps st0 st1 stf. subst stf.
  destruct (initMaps_result city la lo year st Hc Hmaps)
    as [(e & ->)|(st' & m1 & Hu & -> & Hw & Hm1 & Hl1 & Hm2 & _)];
    [done|].
  fold st0 st1 in Hu, Hw, Hm1, Hm2. cbn.
  destruct (wiring_result st1 m1 _ Hm1 Hm2 Hl1 eq_refl)
    as (st'' & Hw' & Hm1' & Hm2' & _ & _ & _ & _ & _ & Hls & Hh & Hbl & Htr).
  assert (st'' = st') as -> by congruence.
  rewrite Hm1', Hm2', Hm1, Hm2. split_and!; done.
Qed.

Lemma same_but_listeners (m m' : L.Map) :
  L.with_listeners [] m' = L.with_listeners [] m ->
  L.mapLayers m' = L.mapLayers m /\
  L.layerControls m' = L.layerControls m /\
  L.mapOptions m' = L.mapOptions m /\
  L.center m' = L.center m /\ L.zoom m' = L.zoom m /\
  L.container m' = L.container m.
Proof. destruct m, m'. cbn. intros [= -> -> -> -> -> ->]. done. Qed.

(** X15. What [initMaps] shows on a page just loaded, for every city
    key and year: the historical panel gets an OpenStreetMap layer of
    its own as its first layer; the modern panel shows the satellite
    layer and only that one, while its OpenStreetMap layer exists but is
    not attached, being offered in the layer picker next to the
    satellite layer; the picker is on the modern panel only; all three
    layers are limited to zoom levels 9 to 19; neither panel has zoom
    or attribution controls. *)
Theorem initMaps_base_layers city la lo year :
  centerCoords !! city = Some (la, lo) ->
  let st := final_state pageLoaded (initMaps city year pageLoaded) in
  let osm :=
    {| L.url := "https://{s}.tile.openstreetmap.org/{z}/{x}/{y}.png";
       L.layerOptions :=
         {| L.maxZoom := 19; L.minZoom := 9;
            L.attribution := Some "&copy; OSM contributors";
            L.tms := None; L.noWrap := None |} |} in
  let sat :=
    {| L.url := "https://mt1.google.com/vt/lyrs=s&x={x}&y={y}&z={z}";
       L.layerOptions :=
         {| L.maxZoom := 19; L.minZoom := 9;
            L.attribution := Some "&copy; Google Satellite";
            L.tms := None; L.noWrap := None |} |} in
  let picker := [("OpenStreetMap", 1%nat); ("Satellite Imagery", 2%nat)] in
  layers st !! 0%nat = Some osm /\ layers st !! 1%nat = Some osm /\
  layers st !! 2%nat = Some sat /\
  baseLayers st = Some picker /\
  exists m1 m2,
    map1 st = Some m1 /\ map2 st = Some m2 /\
    L.mapLayers m1 = 0%nat :: option_list (histLayer st) /\
    L.mapLayers m2 = [2%nat] /\
    L.layerControls m1 = [] /\ L.layerControls m2 = [picker] /\
    L.zoomControl (L.mapOptions m1) = false /\
    L.attributionControl (L.mapOptions m1) = false /\
    L.zoomControl (L.mapOptions m2) = false /\
    L.attributionControl (L.mapOptions m2) = false.
Proof.
  intros Hc st osm sat picker.
  destruct (initMaps_final city la lo year pageLoaded Hc (or_introl eq_refl))
    as (Hls & Hh & Hbl & _ & Hm1 & Hm2).
  fold st in Hls, Hh, Hbl, Hm1, Hm2.
  set (st0 := rebuilt (L.latLng la lo) pageLoaded) in *.
  set (st1 := final_state st0 (updateHistoricalLayer city year st0)) in *.
  destruct (updateHistoricalLayerIn_frame TILE_FOLDER_MAP city year st0)
    as (Hf1 & Hf2 & _ & _ & _ & _ & _ & Hfb).
  fold (updateHistoricalLayer city year) in Hf1, Hf2, Hfb.
  fold st1 in Hf1, Hf2, Hfb.
  assert (baseAt 0%nat st1) as (m1' & l & Hm1' & Hml & _).
  { apply baseAt_update; [apply (layerInvariant_built (L.latLng la lo))|].
    eexists _, _. split_and!; done. }
  rewrite Hls, Hh, Hbl, Hfb.
  unfold st1, updateHistoricalLayer.
  rewrite !updateHistoricalLayerIn_keeps_others by (done || (cbn; lia)).
  split_and!; try done.
  fold (updateHistoricalLayer city year). fold st1.
  rewrite Hm1' in Hm1, Hf1. rewrite Hf2 in Hm2.
  destruct (map1 st) as [m1|]; [|done].
  destruct (map2 st) as [m2|]; [|done].
  cbn in Hm1, Hm2, Hf1.
  apply (inj Some) in Hm1, Hm2, Hf1.
  apply same_but_listeners in Hm1 as (Hl1 & Hc1 & Ho1 & _).
  apply same_but_listeners in Hm2 as (Hl2 & Hc2 & Ho2 & _).
  exists m1, m2. rewrite Hl1, Hl2, Hc1, Hc2, Ho1, Ho2, Hml.
  apply (f_equal L.layerControls) in Hf1 as Hfc.
  apply (f_equal L.mapOptions) in Hf1 as Hfo.
  cbn in Hfc, Hfo. rewrite Hfc, Hfo. split_and!; done.
Qed.

(** X16. [initMaps] may be called again. From a state of a page session
    and for a city key, a call that returns leaves the page as a first
    call does: the cursor indicators of the earlier call are out of the
    document, which holds two new ones at the origin; each of the two
    new panels carries the three listeners once; the guard is down; both
    panels show the city at zoom 13. *)
Theorem initMaps_again city la lo year st st' :
  centerCoords !! city = Some (la, lo) ->
  reachable st ->
  initMaps city year st = Normal tt st' ->
  ready st' /\ cursorsAligned st' /\
  documentCursors st' =
    [length (elements st); S (length (elements st))] /\
  viewOf L.Map1 st' = Some (L.latLng la lo, 13) /\
  viewOf L.Map2 st' = Some (L.latLng la lo, 13).
Proof.
  intros Hc [Hready _]%reachable_invariants Hinit.
  assert (map1 st = None \/ (is_Some (map1 st) /\ is_Some (map2 st))) as Hmaps.
  { right. destruct Hready as ((m1 & -> & _) & (m2 & -> & _) & _).
    split; by eexists. }
  destruct (initMaps_result city la lo year st Hc Hmaps)
    as [(e & He)|(st'' & m1 & Hu & Hi & Hw & Hm1 & Hl1 & Hm2 & _)];
    [congruence|].
  assert (st'' = st') as -> by congruence.
  set (st0 := rebuilt (L.latLng la lo) st) in *.
  set (st1 := final_state st0 (updateHistoricalLayer city year st0)) in *.
  destruct (updateHistoricalLayerIn_frame TILE_FOLDER_MAP city year st0)
    as (Hf1 & _ & _ & _ & _ & Hel & _).
  fold (updateHistoricalLayer city year) in Hf1, Hel. fold st1 in Hf1, Hel.
  destruct (wiring_result st1 m1 _ Hm1 Hm2 Hl1 eq_refl)
    as (st'' & Hw' & Hm1' & Hm2' & Hs & Hc1 & Hc2 & Hels & Hdc & _).
  assert (st'' = st') as -> by congruence.
  rewrite Hel in *. cbn in Hc1, Hc2, Hels, Hdc.
  rewrite Hm1 in Hf1. cbn in Hf1. apply (inj Some) in Hf1.
  unfold ready, cursorsAligned, viewOf. cbn.
  rewrite Hm1', Hm2', Hs, Hc1, Hc2, Hels, Hdc. cbn.
  rewrite length_app. cbn.
  split_and!; try done.
  - by eexists.
  - by eexists.
  - eexists. split; [done|]. lia.
  - eexists. split; [done|]. lia.
  - eexists _, _, _, _.
    split; [reflexivity|]. split; [reflexivity|]. split; [lia|].
    split; [reflexivity|].
    split; [by rewrite lookup_app_r, Nat.sub_diag by lia|].
    split.
    { rewrite lookup_app_r by lia.
      by replace (S (length (elements st)) - length (elements st))%nat
        with 1%nat by lia. }
    split_and!; reflexivity.
  - apply (f_equal L.center) in Hf1 as Hfc.
    apply (f_equal L.zoom) in Hf1 as Hfz. cbn in Hfc, Hfz.
    by rewrite Hfc, Hfz.
Qed.

(** X17. What a second [initMaps] does not renew is [histLayer]. When
    the layer is Present and the year asked for has a folder, the call
    sets the URL of the old layer object and leaves it where it is,
    which is on no map: the new primary map carries its base layer
    only, the historical layer is not shown, and the invariant of C5
    no longer holds. *)
Theorem initMaps_again_keeps_stale_layer city la lo year years folder st h :
  centerCoords !! city = Some (la, lo) ->
  TILE_FOLDER_MAP !! city = Some years ->
  years !! year = Some (Some folder) ->
  reachable st -> histLayer st = Some h ->
  exists st' m1,
    initMaps city year st = Normal tt st' /\
    histLayer st' = Some h /\
    L.url <$> layers st' !! h = Some (tileUrlOf folder) /\
    map1 st' = Some m1 /\ L.mapLayers m1 = [length (layers st)] /\
    ~ attached st' h /\ ~ layerInvariant st'.
Proof.
  intros Hc HT Hy Hreach Hh.
  destruct (reachable_invariants st Hreach) as [Hready Hinv].
  destruct (layerInvariant_histLayer st h Hinv Hh)
    as (Hlt & _ & _).
  destruct (lookup_lt_is_Some_2 _ _ Hlt) as [l Hl].
  assert (map1 st = None \/ (is_Some (map1 st) /\ is_Some (map2 st))) as Hmaps.
  { right. destruct Hready as ((m1 & -> & _) & (m2 & -> & _) & _).
    split; by eexists. }
  pose proof (TILE_FOLDER_MAP_folders _ _ _ _ HT Hy) as Hne.
  pose proof (lookupFolder_own _ _ _ _ _ HT Hy) as Hlf.
  assert (truthy (VString folder) = true) as Hv
    by (apply (folderValue_truthy (Some folder)); eauto).
  set (st0 := rebuilt (L.latLng la lo) st).
  assert (updateHistoricalLayer city year st0 =
          Normal tt
            (set_layers (alter (L.with_url (tileUrlOf folder)) h (layers st0))
               (set_trace (trace st0 ++ [UrlSet h (tileUrlOf folder)]) st0)))
    as Hrun
    by (by apply (updateHistoricalLayerIn_rebind
                    TILE_FOLDER_MAP city year (VString folder) folder st0 h)).
  set (stu :=
    set_layers (alter (L.with_url (tileUrlOf folder)) h (layers st0))
      (set_trace (trace st0 ++ [UrlSet h (tileUrlOf folder)]) st0)) in *.
  destruct (wiring_result stu _ _ eq_refl eq_refl eq_refl eq_refl)
    as (st' & Hw & Hm1' & _ & _ & _ & _ & _ & _ & Hls & Hh' & _).
  cbn in Hls, Hh', Hm1'.
  assert (initMaps city year st = Normal tt st') as Hi.
  { rewrite (initMaps_unfold_any city la lo) by done. fold st0.
    unfold mbind, M_bind. by rewrite Hrun. }
  assert (~ attached st' h) as Hnot.
  { intros (m & Hm & Hin). rewrite Hm1' in Hm. injection Hm as <-.
    cbn in Hin. apply list_elem_of_singleton in Hin. lia. }
  eexists st', _. split_and!; try done.
  - by rewrite Hh'.
  - rewrite Hls, list_lookup_alter, decide_True by done.
    rewrite lookup_app_l by done. by rewrite Hl.
  - intros Hinv'.
    destruct (layerInvariant_histLayer st' h Hinv') as (_ & Hatt & _);
      [by rewrite Hh'|done].
Qed.


(** ** The script from top to bottom *)

(** The cities the resolver's table names. *)
Lemma cityMap_cities name city :
  cityMap !! name = Some city ->
  city ∈ ["munich"; "vienna"; "dresden"; "enschede"].
Proof.
  unfold cityMap. intros Hn. apply elem_of_list_to_map_2 in Hn.
  repeat (apply elem_of_cons in Hn as [[= -> ->]|Hn]; [set_solver|]).
  by apply elem_of_nil in Hn.
Qed.

(** Each of them has coordinates and a catalog of years. *)
Lemma cityMap_configured name city :
  cityMap !! name = Some city ->
  exists la lo years,
    centerCoords !! city = Some (la, lo) /\
    TILE_FOLDER_MAP !! city = Some years.
Proof.
  intros Hin%cityMap_cities.
  repeat (apply elem_of_cons in Hin as [->|Hin];
          [eexists _, _, _; split; reflexivity|]).
  by apply elem_of_nil in Hin.
Qed.

(** On the page of a name of the table the script is [initMaps] for the
    city of that name, and the listener of the select, where there is
    one, is [updateHistoricalLayer] for it. *)
Lemma script_page pg dir name city :
  pathname pg = dir ++ "/" ++ name ++ ".html" ->
  Str.mem "/" name = false -> Str.occurs ".html" name = false ->
  cityMap !! name = Some city ->
  script pg = initMaps city (initialYear pg) /\
  forall year,
    yearChanged pg year =
    match mapYearSelect pg with
    | Some _ => updateHistoricalLayer city year
    | None => mret tt
    end.
Proof.
  intros Hp Hslash Hhtml Hcity.
  destruct (getCurrentCity_page dir name Hslash Hhtml) as [Hg _].
  rewrite (resolve_table name city Hcity) in Hg.
  unfold script, yearChanged. rewrite Hp, Hg. split; [done|].
  intros year. by destruct (mapYearSelect pg).
Qed.

(** [initMaps] on a page just loaded, for a year with a folder. *)
Lemma initMaps_present city la lo year years folder :
  centerCoords !! city = Some (la, lo) ->
  TILE_FOLDER_MAP !! city = Some years ->
  years !! year = Some (Some folder) ->
  exists st,
    initMaps city year pageLoaded = Normal tt st /\
    histLayer st = Some 3%nat /\
    present st (tileUrlOf folder).
Proof.
  intros Hc HT Hy.
  pose proof (TILE_FOLDER_MAP_folders _ _ _ _ HT Hy) as Hne.
  pose proof (lookupFolder_own _ _ _ _ _ HT Hy) as Hlf.
  assert (truthy (VString folder) = true) as Hv
    by (apply (folderValue_truthy (Some folder)); eauto).
  destruct (updateHistoricalLayerIn_create TILE_FOLDER_MAP city year
              (VString folder) folder (built (L.latLng la lo)) _
              Hlf Hv eq_refl eq_refl eq_refl)
    as (st1 & Hu & Hh1 & Hls1 & _).
  fold (updateHistoricalLayer city year) in Hu.
  destruct (initMaps_outcome city la lo year Hc)
    as [(e & He & _)|(st & m1 & m2 & Hi & _ & _ & _ & _ & _ & _ & _ & _
                       & Hls & Hh & _)]; [congruence|].
  rewrite Hu in Hls, Hh. cbn in Hls, Hh. rewrite Hls1 in Hls.
  rewrite Hh1 in Hh. cbn in Hls, Hh.
  exists st. split; [done|]. split; [done|].
  destruct (initMaps_normal city year st Hi) as [_ Hinv].
  destruct (layerInvariant_histLayer st 3%nat Hinv Hh) as (_ & Hatt & _).
  eexists 3%nat, _. split; [done|]. split; [by rewrite Hls|]. done.
Qed.

(** The same for a year without one. *)
Lemma initMaps_absent city la lo year :
  centerCoords !! city = Some (la, lo) ->
  Unavailable TILE_FOLDER_MAP city year ->
  exists st,
    initMaps city year pageLoaded = Normal tt st /\
    absent st /\
    Warned (warning city year) ∈ trace st.
Proof.
  intros Hc (v & Hlf & Hv)%Unavailable_falsy.
  pose proof (updateHistoricalLayerIn_falsy TILE_FOLDER_MAP city year v
                (built (L.latLng la lo)) Hlf Hv) as Hu.
  rewrite absentBranch_none in Hu by done.
  fold (updateHistoricalLayer city year) in Hu.
  destruct (initMaps_outcome city la lo year Hc)
    as [(e & He & _)|(st & m1 & m2 & Hi & _ & _ & _ & _ & _ & _ & _ & _
                       & _ & Hh & Htr)]; [congruence|].
  rewrite Hu in Hh, Htr. cbn in Hh, Htr.
  exists st. split; [done|]. split; [done|].
  rewrite Htr. set_solver.
Qed.

(** X18. On the page of a city ([munich.html], [index.html], ...) the
    script runs [initMaps] for that city and the year of the select.
    Every city the resolver's table names has coordinates and a catalog
    of years, so the call does not throw for lack of them: for a year
    with a folder it returns with the historical layer Present and bound
    to that folder, and for a year without imagery it returns with the
    layer Absent and a warning. The page session starts either way. *)
Theorem script_starts_session pg dir name city :
  pathname pg = dir ++ "/" ++ name ++ ".html" ->
  Str.mem "/" name = false -> Str.occurs ".html" name = false ->
  cityMap !! name = Some city ->
  script pg = initMaps city (initialYear pg) /\
  exists la lo years,
    centerCoords !! city = Some (la, lo) /\
    TILE_FOLDER_MAP !! city = Some years /\
    (forall folder,
       years !! initialYear pg = Some (Some folder) ->
       exists st,
         script pg pageLoaded = Normal tt st /\ reachable st /\
         present st (tileUrlOf folder)) /\
    (Unavailable TILE_FOLDER_MAP city (initialYear pg) ->
     exists st,
       script pg pageLoaded = Normal tt st /\ reachable st /\
       absent st /\
       Warned (warning city (initialYear pg)) ∈ trace st).
Proof.
  intros Hp Hslash Hhtml Hcity.
  destruct (script_page pg dir name city Hp Hslash Hhtml Hcity) as [-> _].
  split; [done|].
  destruct (cityMap_configured name city Hcity) as (la & lo & years & Hc & HT).
  exists la, lo, years. split; [done|]. split; [done|]. split.
  - intros folder Hy.
    destruct (initMaps_present city la lo _ years folder Hc HT Hy)
      as (st & Hi & _ & Hpres).
    exists st. split; [done|]. split; [|done].
    by apply (reachable_init city (initialYear pg)).
  - intros Hun.
    destruct (initMaps_absent city la lo _ Hc Hun) as (st & Hi & Habs & Hw).
    exists st. split; [done|]. split; [|done].
    by apply (reachable_init city (initialYear pg)).
Qed.

(** X19. A page without the select starts with the year 1888, which
    only Munich's catalog has. On such a page of Munich the historical
    layer is Present and bound to [tiles/muc-1888/{z}/{x}/{y}.png]; on
    such a page of Vienna, Dresden or Enschede the layer is Absent, the
    panel shows the background only and the warning names the city and
    1888, provided [Object.prototype] has nothing truthy under that
    name. *)
Theorem script_without_select pg dir name city :
  pathname pg = dir ++ "/" ++ name ++ ".html" ->
  Str.mem "/" name = false -> Str.occurs ".html" name = false ->
  cityMap !! name = Some city ->
  mapYearSelect pg = None ->
  truthy (object_prototype_get "1888") = false ->
  exists st,
    script pg pageLoaded = Normal tt st /\
    if decide (city = "munich")
    then present st "tiles/muc-1888/{z}/{x}/{y}.png"
    else absent st /\
         Warned ("Tiles for " ++ city ++
                 " year 1888 are not yet available. Showing background only.")
           ∈ trace st.
Proof.
  intros Hp Hslash Hhtml Hcity Hsel Hproto.
  destruct (script_page pg dir name city Hp Hslash Hhtml Hcity) as [-> _].
  unfold initialYear. rewrite Hsel.
  apply cityMap_cities in Hcity.
  apply elem_of_cons in Hcity as [->|Hcity].
  { edestruct initMaps_present
      with (city := "munich") (year := "1888") (folder := "muc-1888")
      as (st & Hi & _ & Hpres); [vm_compute; reflexivity..|].
    exists st. split; [done|]. rewrite decide_True by done. exact Hpres. }
  assert ((exists la lo, centerCoords !! city = Some (la, lo)) /\
          Unavailable TILE_FOLDER_MAP city "1888" /\ city ≠ "munich")
    as ((la & lo & Hc) & Hun & Hne).
  { repeat (apply elem_of_cons in Hcity as [->|Hcity];
            [split_and!;
               [eexists _, _; reflexivity
               |eapply noYear;
                  [reflexivity|vm_compute; reflexivity|exact Hproto]
               |by intros [=]]|]).
    by apply elem_of_nil in Hcity. }
  destruct (initMaps_absent city la lo "1888" Hc Hun) as (st & Hi & Habs & Hw).
  exists st. split; [done|]. rewrite decide_False by done. done.
Qed.

(** X20. Whatever the page and whatever year is chosen, the listener of
    the select leaves a page session a page session: without the select
    there is no listener, with a city that cannot be made a key the call
    throws before it does anything, and otherwise it is
    [updateHistoricalLayer] for the city resolved when the script ran.
    So what holds between any two events holds after it: the panels are
    ready, there is at most one historical layer, the base layer is in
    place and the cursor indicators are aligned. *)
Theorem yearChanged_keeps_session pg year st :
  reachable st ->
  let st' := final_state st (yearChanged pg year st) in
  reachable st' /\ ready st' /\ layerInvariant st' /\
  baseKept st' /\ cursorsAligned st'.
Proof.
  intros Hreach st'.
  assert (reachable st') as Hreach'.
  { subst st'. unfold yearChanged.
    destruct (mapYearSelect pg) as [value|]; [|done].
    destruct (getCurrentCity (pathname pg)) as [currentCity|]; [|done].
    unfold updateHistoricalLayerOf, mbind, M_bind, lift.
    destruct (to_string currentCity) as [e|key]; [done|].
    cbn. eapply reachable_step; [done|]. by eapply step_year. }
  destruct (reachable_invariants st' Hreach') as [Hready Hinv].
  destruct (reachable_steady st' Hreach') as [Hbase Hcursors].
  split_and!; done.
Qed.

(** ** The fullscreen button *)

(** X21. A click on the fullscreen button calls at most one method and
    only one that exists, the first in the order standard, webkit, moz,
    ms. It leaves fullscreen exactly when one of the four fullscreen
    elements is set, and enters it on the main content otherwise. The
    two directions differ when no method exists: entering ends in an
    alert, leaving does nothing at all. *)
Theorem click_calls_first_available (b : Fullscreen.Browser) :
  let isFullscreen :=
    exists v, Fullscreen.fullscreenElement b v = true in
  match Fullscreen.click b with
  | Fullscreen.Exit v =>
      isFullscreen /\ Fullscreen.exitMethod b v = true /\
      forall w, Fullscreen.before w v = true ->
                Fullscreen.exitMethod b w = false
  | Fullscreen.Request v =>
      ~ isFullscreen /\ Fullscreen.requestMethod b v = true /\
      forall w, Fullscreen.before w v = true ->
                Fullscreen.requestMethod b w = false
  | Fullscreen.Alert _ =>
      ~ isFullscreen /\ forall v, Fullscreen.requestMethod b v = false
  | Fullscreen.Nothing =>
      isFullscreen /\ forall v, Fullscreen.exitMethod b v = false
  end.
Proof.
  intros isFullscreen. subst isFullscreen. unfold Fullscreen.click.
  destruct (Fullscreen.fullscreenElement b Fullscreen.Standard) eqn:Hf1;
  destruct (Fullscreen.fullscreenElement b Fullscreen.Webkit) eqn:Hf2;
  destruct (Fullscreen.fullscreenElement b Fullscreen.Moz) eqn:Hf3;
  destruct (Fullscreen.fullscreenElement b Fullscreen.Ms) eqn:Hf4; cbn;
  try (destruct (Fullscreen.exitMethod b Fullscreen.Standard) eqn:He1;
       [|destruct (Fullscreen.exitMethod b Fullscreen.Webkit) eqn:He2;
         [|destruct (Fullscreen.exitMethod b Fullscreen.Moz) eqn:He3;
           [|destruct (Fullscreen.exitMethod b Fullscreen.Ms) eqn:He4]]];
       (split; [by eauto|]);
       try (split; [done|]); by intros []).
  all: destruct (Fullscreen.requestMethod b Fullscreen.Standard) eqn:Hr1;
       [|destruct (Fullscreen.requestMethod b Fullscreen.Webkit) eqn:Hr2;
         [|destruct (Fullscreen.requestMethod b Fullscreen.Moz) eqn:Hr3;
           [|destruct (Fullscreen.requestMethod b Fullscreen.Ms) eqn:Hr4]]];
       (split; [intros [[] ?]; congruence|]);
       try (split; [done|]); by intros [].
Qed.

(** X22. In every state of a page session both guards of the resize
    callback pass: a fullscreen change resizes the historical panel and
    the modern panel, in this order. *)
Theorem fullscreen_change_resizes_both st :
  reachable st -> Fullscreen.resized st = [L.Map1; L.Map2].
Proof.
  intros [Hready _]%reachable_invariants.
  destruct Hready as ((m1 & Hm1 & _) & (m2 & Hm2 & _) & _).
  unfold Fullscreen.resized. by rewrite Hm1, Hm2.
Qed.

End Coverage.

(** * More of the script, at work

    The theorems of the last part at concrete inputs. *)

Lemma reachable_later : reachable Visit.later.
Proof.
  assert (reachable Visit.zoomed) as Hz.
  { apply (reachable_step Sample.dresden); [exact reachable_dresden|].
    apply (step_gesture 2 L.Map2 Sample.draggedTo 15 L.Zoom).
    vm_compute. reflexivity. }
  assert (reachable Visit.pointed) as Hp.
  { apply (reachable_step Visit.zoomed); [exact Hz|].
    apply (step_pointer 1 L.Map1 Sample.pointer).
    vm_compute. reflexivity. }
  apply (reachable_step Visit.pointed); [exact Hp|].
  exact (step_year "dresden" "1878" Visit.pointed _ eq_refl).
Qed.

Lemma getCurrentCity_resolves_page_witness :
  getCurrentCity "/maps/dresden.html" = getCurrentCity "/maps/dresden" /\
  getCurrentCity "/maps/dresden.html" = Some (VString "dresden").
Proof.
  destruct (getCurrentCity_resolves_page "/maps" "dresden")
    as (Hsame & Htable & _); [vm_compute; reflexivity..|].
  split; [exact Hsame|]. apply Htable. vm_compute. reflexivity.
Defined.

Lemma pageName_first_occurrence_witness :
  pageName "/maps/dresden.html.bak" = Some "dresden.bak".
Proof.
  destruct (pageName_first_occurrence "/maps" "dresden" ".bak")
    as [Hname _]; [vm_compute; reflexivity..|].
  exact Hname.
Defined.

Lemma updateHistoricalLayer_detaches_witness :
  exists st',
    updateHistoricalLayer "munich" "1400" Sample.dresden = Normal tt st' /\
    absent st' /\ layers st' = layers Sample.dresden.
Proof.
  destruct (updateHistoricalLayer_detaches TILE_FOLDER_MAP "munich" "1400"
              Sample.dresden) as (st' & Hrun & Habsent & Hlayers & _).
  - eapply markedAbsent; vm_compute; reflexivity.
  - exact (proj2 (reachable_invariants _ reachable_dresden)).
  - exists st'. split; [exact Hrun|]. split; [exact Habsent|exact Hlayers].
Defined.

Lemma updateHistoricalLayer_throws_before_effects_witness :
  exists st',
    updateHistoricalLayer "vienna" "1800" Sample.munich = Normal tt st'.
Proof.
  destruct (updateHistoricalLayer_throws_before_effects TILE_FOLDER_MAP
              "vienna" "1800" Sample.munich) as [_ Hlisted].
  - eexists. vm_compute. reflexivity.
  - eapply Hlisted; vm_compute; reflexivity.
Defined.

Lemma updateHistoricalLayer_there_and_back_witness :
  exists st2 st3,
    updateHistoricalLayer "dresden" "1878" Sample.dresden = Normal tt st2 /\
    updateHistoricalLayer "dresden" "1833" st2 = Normal tt st3 /\
    histLayer st3 = histLayer Sample.dresden /\
    layers st3 = layers Sample.dresden /\
    map1 st3 = map1 Sample.dresden.
Proof.
  edestruct updateHistoricalLayer_there_and_back
    with (city1 := "dresden") (year1 := "1833") (F1 := "d_1833")
         (city2 := "dresden") (year2 := "1878") (F2 := "dre-1878-folder")
         (st := Sample.dresden) (h := 3%nat)
    as (st2 & st3 & Hrun2 & Hrun3 & _ & Hh & Hl & Hm1 & _);
    [vm_compute; reflexivity..|].
  exists st2, st3. repeat (split; [assumption|]). assumption.
Defined.

Lemma updateHistoricalLayer_through_absent_witness :
  exists st1 st2,
    updateHistoricalLayer "munich" "1400" Sample.dresden = Normal tt st1 /\
    updateHistoricalLayer "dresden" "1750" st1 = Normal tt st2 /\
    present st2 "tiles/dre-1750-folder/{z}/{x}/{y}.png" /\
    histLayer st2 = Some 4%nat /\ ~ attached st2 3%nat.
Proof.
  edestruct updateHistoricalLayer_through_absent
    with (cityA := "munich") (yearA := "1400") (city := "dresden")
         (year := "1750") (folder := "dre-1750-folder")
         (st := Sample.dresden) (h := 3%nat)
    as (st1 & st2 & Hrun1 & Hrun2 & _ & Hpresent & Hh & _ & Hnot & _).
  - eapply markedAbsent; vm_compute; reflexivity.
  - vm_compute. reflexivity.
  - vm_compute. reflexivity.
  - exact (proj2 (reachable_invariants _ reachable_dresden)).
  - vm_compute. reflexivity.
  - exists st1, st2. split; [exact Hrun1|]. split; [exact Hrun2|].
    split; [exact Hpresent|]. split; [|exact Hnot].
    rewrite Hh. vm_compute. reflexivity.
Defined.

Lemma base_layer_stays_witness :
  exists m b l,
    map1 Visit.later = Some m /\
    L.mapLayers m = b :: option_list (histLayer Visit.later) /\
    layers Visit.later !! b = Some l /\
    L.url l = "https://{s}.tile.openstreetmap.org/{z}/{x}/{y}.png" /\
    L.layerOptions l ≠ historicalOptions.
Proof. exact (base_layer_stays Visit.later reachable_later). Defined.

Lemma cursors_stay_aligned_witness :
  exists h1 h2 c1 c2,
    cursor1 Visit.later = Some h1 /\ cursor2 Visit.later = Some h2 /\
    h1 ≠ h2 /\ documentCursors Visit.later = [h1; h2] /\
    elements Visit.later !! h1 = Some c1 /\
    elements Visit.later !! h2 = Some c2 /\
    styleLeft c1 = styleLeft c2 /\ styleTop c1 = styleTop c2.
Proof.
  destruct (cursors_stay_aligned Visit.later reachable_later)
    as (h1 & h2 & c1 & c2 & H1 & H2 & Hne & Hdoc & He1 & He2 & _ & _ & _ & _
        & Hleft & Htop).
  exists h1, h2, c1, c2. repeat (split; [assumption|]). assumption.
Defined.

Lemma listeners_and_guard_between_events_witness :
  syncing Visit.later = false /\
  exists m1 m2,
    map1 Visit.later = Some m1 /\ map2 Visit.later = Some m2 /\
    length (L.listeners m1) = 3%nat /\ length (L.listeners m2) = 3%nat.
Proof.
  destruct (listeners_and_guard_between_events Visit.later reachable_later)
    as (Hguard & m1 & m2 & Hm1 & Hm2 & Hl1 & Hl2).
  split; [exact Hguard|]. exists m1, m2.
  split; [exact Hm1|]. split; [exact Hm2|].
  rewrite Hl1, Hl2. split; reflexivity.
Defined.

Lemma gesture_asks_other_panel_witness :
  exists st',
    gesture 2 L.Map1 Sample.draggedPast 13 L.Move Sample.dresden
      = Normal tt st' /\
    viewOf L.Map1 st' = Some (Sample.draggedPast, 13) /\
    viewOf L.Map2 st' = Some (L.latLng 71 13.74, 13) /\
    syncing st' = false /\
    trace st' =
      (trace Sample.dresden ++
       [GuardSet true; ViewSet L.Map2 Sample.draggedPast 13 (Some false);
        GuardSet false])%list.
Proof.
  edestruct (gesture_asks_other_panel 2 L.Map1 Sample.draggedPast 13 L.Move
               Sample.dresden)
    as (st' & Hrun & Hv1 & Hv2 & Hguard & Htrace & _);
    [exact (proj1 (reachable_invariants _ reachable_dresden)) | lia
    | vm_compute; reflexivity |].
  change (L.other L.Map1) with L.Map2 in Hv2.
  exists st'. split; [exact Hrun|]. split; [exact Hv1|].
  split; [rewrite Hv2; vm_compute; reflexivity|].
  split; [exact Hguard|exact Htrace].
Defined.


Lemma pointer_move_frame_witness :
  exists st',
    fire 1 L.Map1 (MouseMoved Sample.pointer) Visit.later = Normal tt st' /\
    st' = set_elements (elements st') Visit.later /\
    length (elements st') = length (elements Visit.later).
Proof.
  destruct (pointer_move_frame 1 L.Map1 Sample.pointer Visit.later)
    as (st' & h1 & h2 & Hrun & _ & _ & Hframe & Hlen & _);
    [exact (proj1 (reachable_invariants _ reachable_later)) | lia |].
  exists st'. split; [exact Hrun|]. split; [exact Hframe|exact Hlen].
Defined.

Lemma initMaps_base_layers_witness :
  let st := final_state pageLoaded (initMaps "vienna" "1833" pageLoaded) in
  exists m1 m2,
    map1 st = Some m1 /\ map2 st = Some m2 /\
    L.mapLayers m1 = 0%nat :: option_list (histLayer st) /\
    L.mapLayers m2 = [2%nat] /\
    L.layerControls m1 = [] /\
    L.layerControls m2 =
      [[("OpenStreetMap", 1%nat); ("Satellite Imagery", 2%nat)]].
Proof.
  destruct (initMaps_base_layers "vienna" 48.2082 16.3738 "1833")
    as (_ & _ & _ & _ & m1 & m2 & Hm1 & Hm2 & Hl1 & Hl2 & Hc1 & Hc2 & _);
    [vm_compute; reflexivity|].
  exists m1, m2. repeat (split; [assumption|]). assumption.
Defined.

Lemma initMaps_again_witness :
  let st' := final_state Visit.later (initMaps "vienna" "1800" Visit.later) in
  ready st' /\ documentCursors st' = [2%nat; 3%nat] /\
  viewOf L.Map1 st' = Some (L.latLng 48.2082 16.3738, 13) /\
  viewOf L.Map2 st' = Some (L.latLng 48.2082 16.3738, 13).
Proof.
  destruct (initMaps_again "vienna" 48.2082 16.3738 "1800" Visit.later
              (final_state Visit.later
                 (initMaps "vienna" "1800" Visit.later)))
    as (Hready & _ & Hdoc & Hv1 & Hv2);
    [vm_compute; reflexivity | exact reachable_later
    | vm_compute; reflexivity |].
  split; [exact Hready|]. split; [|split; [exact Hv1|exact Hv2]].
  rewrite Hdoc. vm_compute. reflexivity.
Defined.

Lemma initMaps_again_keeps_stale_layer_witness :
  exists st',
    initMaps "vienna" "1800" Visit.later = Normal tt st' /\
    histLayer st' = Some 3%nat /\
    ~ attached st' 3%nat /\ ~ layerInvariant st'.
Proof.
  edestruct initMaps_again_keeps_stale_layer
    with (city := "vienna") (la := 48.2082%Q) (lo := 16.3738%Q)
         (year := "1800") (folder := "vie-1800-folder")
         (st := Visit.later) (h := 3%nat)
    as (st' & m1 & Hrun & Hh & _ & _ & _ & Hnot & Hbroken);
    [vm_compute; reflexivity | vm_compute; reflexivity
    | vm_compute; reflexivity | exact reachable_later
    | vm_compute; reflexivity |].
  exists st'. split; [exact Hrun|]. split; [exact Hh|].
  split; [exact Hnot|exact Hbroken].
Defined.

Lemma script_starts_session_witness :
  exists st,
    script Visit.dresdenPage pageLoaded = Normal tt st /\
    reachable st /\ present st "tiles/d_1833/{z}/{x}/{y}.png".
Proof.
  destruct (script_starts_session Visit.dresdenPage "/maps" "dresden"
              "dresden")
    as (_ & la & lo & years & _ & HT & Hfolder & _);
    [vm_compute; reflexivity..|].
  apply (Hfolder "d_1833").
  assert (TILE_FOLDER_MAP !! "dresden" ≫= (.!! "1833")
          = Some (Some "d_1833")) as Hy by (vm_compute; reflexivity).
  rewrite HT in Hy. exact Hy.
Defined.

Lemma script_without_select_witness :
  exists st,
    script Visit.viennaPage pageLoaded = Normal tt st /\ absent st.
Proof.
  destruct (script_without_select Visit.viennaPage "/cartorewind" "vienna"
              "vienna") as (st & Hrun & Hrest);
    [vm_compute; reflexivity..|].
  rewrite decide_False in Hrest by discriminate.
  exists st. split; [exact Hrun|exact (proj1 Hrest)].
Defined.

Lemma yearChanged_keeps_session_witness :
  reachable
    (final_state Visit.later
       (yearChanged Visit.dresdenPage "1750" Visit.later)).
Proof.
  exact (proj1 (yearChanged_keeps_session Visit.dresdenPage "1750"
                  Visit.later reachable_later)).
Defined.

Lemma fullscreen_change_resizes_both_witness :
  Fullscreen.resized Visit.later = [L.Map1; L.Map2].
Proof. exact (fullscreen_change_resizes_both Visit.later reachable_later). Defined.
